(** * GeminiService: a shallow embedding of [backend/services/GeminiService.js]

    The service reads local media files, sends each one with a fixed
    instruction to a remote model, groups the answers by media kind and
    asks the remote model for one final reply.

    Conventions of the embedding.
    - A JavaScript string is a [string] holding its UTF-8 bytes.
    - A JavaScript number used as a sampling temperature is a binary64
      [float]; the loop counter [attempts] is a [nat], turned into the
      double it denotes by [js_number].
    - The file system and the remote model are the two fields of [Env].
      The remote model is an oracle indexed by the number of requests
      issued so far, so that every stub (and every order in which the
      answers of concurrent requests arrive) is one value of [Env].
    - An [async] method is a computation in the monad [M]: it threads the
      log of issued requests and ends by returning, by raising (a rejected
      promise) or by running out of fuel. *)

From Stdlib Require Import String Ascii List Arith Bool Lia.
From Stdlib Require Import DecimalString PrimFloat.
Import ListNotations.

Set Warnings "-inexact-float".
#[local] Open Scope string_scope.
#[local] Open Scope nat_scope.

(* ===================================================================== *)
(** * JavaScript values                                                   *)
(* ===================================================================== *)

(** A value that is either [undefined] or a string: [response.text],
    [error.message], [apiKey], [contextPrompt]. *)
Inductive JsText : Type :=
| Undefined
| Str (s : string).

(** A thrown value: [undefined], [null], or any other value, seen through
    what reading its [message] property gives.  Reading a property of
    [undefined] or [null] throws. *)
Inductive JsError : Type :=
| ThrownUndefined
| ThrownNull
| mkError (message : JsText).

(** Truthiness of a string-or-undefined value: [Boolean(v)]. *)
Definition truthy (v : JsText) : bool :=
  match v with
  | Undefined => false
  | Str EmptyString => false
  | Str (String _ _) => true
  end.

Definition with_default {A : Type} (d : A) (o : option A) : A :=
  match o with
  | Some x => x
  | None => d
  end.

(** ** String primitives *)

Definition nl : string := String (ascii_of_nat 10) EmptyString.

(** [s.charAt(0)] *)
Definition charAt0 (s : string) : string :=
  match s with
  | EmptyString => EmptyString
  | String c _ => String c EmptyString
  end.

(** [s.slice(1)] *)
Definition slice1 (s : string) : string :=
  match s with
  | EmptyString => EmptyString
  | String _ r => r
  end.

Definition upper_ascii (c : ascii) : ascii :=
  let n := nat_of_ascii c in
  if (97 <=? n) && (n <=? 122) then ascii_of_nat (n - 32) else c.

(** [s.toUpperCase()], exact on ASCII letters (the kind names are ASCII);
    other bytes are left as they are. *)
Fixpoint toUpperCase (s : string) : string :=
  match s with
  | EmptyString => EmptyString
  | String c r => String (upper_ascii c) (toUpperCase r)
  end.

(** [type.charAt(0).toUpperCase() + type.slice(1)] *)
Definition capitalize (type : string) : string :=
  toUpperCase (charAt0 type) ++ slice1 type.

(** [`${n}`] for a non-negative integer. *)
Definition show_nat (n : nat) : string :=
  NilEmpty.string_of_uint (Nat.to_uint n).

(** [l.join('')] on strings. *)
Definition join (sep : string) (l : list string) : string :=
  String.concat sep l.

(** [l.map((x, i) => f(x, i))], the index counted from [start]. *)
Fixpoint mapi_from {A B : Type} (start : nat) (f : A -> nat -> B) (l : list A)
  : list B :=
  match l with
  | [] => []
  | x :: r => f x start :: mapi_from (S start) f r
  end.

Definition mapi {A B : Type} (f : A -> nat -> B) (l : list A) : list B :=
  mapi_from 0 f l.

(** ** White space, for [s.trim() === ''] *)

(** One-byte white space and line terminators: TAB, LF, VT, FF, CR, SP. *)
Definition ws1 (a : nat) : bool :=
  ((9 <=? a) && (a <=? 13)) || (a =? 32).

(** Two-byte white space: U+00A0. *)
Definition ws2 (a b : nat) : bool :=
  (a =? 194) && (b =? 160).

(** Three-byte white space: U+1680, U+2000..U+200A, U+2028, U+2029,
    U+202F, U+205F, U+3000, U+FEFF. *)
Definition ws3 (a b c : nat) : bool :=
  ((a =? 225) && (b =? 154) && (c =? 128))
  || ((a =? 226) && (b =? 128)
        && (((128 <=? c) && (c <=? 138)) || (c =? 168) || (c =? 169) || (c =? 175)))
  || ((a =? 226) && (b =? 129) && (c =? 159))
  || ((a =? 227) && (b =? 128) && (c =? 128))
  || ((a =? 239) && (b =? 187) && (c =? 191)).

(** [s.trim() === '']: every character of [s] is white space. *)
Fixpoint trim_is_empty (s : string) : bool :=
  match s with
  | EmptyString => true
  | String a r1 =>
      if ws1 (nat_of_ascii a) then trim_is_empty r1
      else
        match r1 with
        | EmptyString => false
        | String b r2 =>
            if ws2 (nat_of_ascii a) (nat_of_ascii b) then trim_is_empty r2
            else
              match r2 with
              | EmptyString => false
              | String c r3 =>
                  if ws3 (nat_of_ascii a) (nat_of_ascii b) (nat_of_ascii c)
                  then trim_is_empty r3
                  else false
              end
        end
  end.

(** [!text || text.trim() === ''] *)
Definition no_text (text : JsText) : bool :=
  match text with
  | Undefined => true
  | Str s => negb (truthy (Str s)) || trim_is_empty s
  end.

(** ** Numbers *)

(** The double reached from [0] by [n] increments [attempts++]. *)
Fixpoint js_number (n : nat) : float :=
  match n with
  | O => 0%float
  | S k => (js_number k + 1)%float
  end.

(* ===================================================================== *)
(** * Data model                                                          *)
(* ===================================================================== *)

Module ProcessingResult.
(** An object with the optional properties [content], [processed] and
    [error]; [None] is a property the object does not have. *)
Record t : Type := mk {
  content : option JsText;
  processed : option bool;
  error : option string
}.
End ProcessingResult.

Module FinalResponse.
(** [results] is the object [{ text: r }], kept as its one entry [r]. *)
Record t : Type := mk {
  status : string;
  message : option string;
  processed : option bool;
  error : option string;
  response : option JsText;
  results : option ProcessingResult.t
}.
End FinalResponse.

(** [item.content], [undefined] when the property is missing. *)
Definition get_content (item : ProcessingResult.t) : JsText :=
  match ProcessingResult.content item with
  | Some v => v
  | None => Undefined
  end.

(** An object used as a map from type names to arrays; the entries are in
    insertion order, as [Object.entries] lists them for keys that are not
    array indices (the kind names are not). *)
Definition ResultsObject : Type := list (string * list ProcessingResult.t).
Bind Scope list_scope with ResultsObject.

Record AggregatedStatus : Type := mkStatus {
  results : ResultsObject;
  messages : list string
}.

(** ** The remote model boundary *)

Inductive Part : Type :=
| InlineData (mimeType : string) (data : string)
| Text (text : string).

Record Config : Type := mkConfig {
  maxOutputTokens : nat;
  temperature : float;
  systemInstruction : option string
}.

Record Request : Type := mkRequest {
  model : string;
  contents : list Part;
  config : Config
}.

(** What one call of [ai.models.generateContent] does: it throws (or its
    promise rejects), or it answers a response whose [text] is a string or
    [undefined].  An answer that is not an object makes the reading of its
    [text] throw inside the same [try], so it counts as a throw. *)
Inductive RemoteOutcome : Type :=
| Throws (e : JsError)
| Responds (text : JsText).

(** The world around the service.  [fs path] is the content of the file
    or the error [readFileSync] throws; [base64] is the encoder;
    [generateContent n req] is the outcome of the request [req] when [n]
    requests were issued before it. *)
Record Env : Type := mkEnv {
  fs : string -> JsError + string;
  base64 : string -> string;
  generateContent : nat -> Request -> RemoteOutcome
}.

(* ===================================================================== *)
(** * The monad of async methods                                          *)
(* ===================================================================== *)

(** The log of the requests issued to the remote model, oldest first. *)
Definition World : Type := list Request.

Inductive Completion (A : Type) : Type :=
| Returned (a : A)
| Raised (e : JsError)
| OutOfFuel.
Arguments Returned {A} a.
Arguments Raised {A} e.
Arguments OutOfFuel {A}.

Definition M (A : Type) : Type := World -> Completion A * World.

Definition ret {A : Type} (a : A) : M A := fun w => (Returned a, w).

Definition raise {A : Type} (e : JsError) : M A := fun w => (Raised e, w).

Definition bind {A B : Type} (m : M A) (k : A -> M B) : M B :=
  fun w =>
    match m w with
    | (Returned a, w') => k a w'
    | (Raised e, w') => (Raised e, w')
    | (OutOfFuel, w') => (OutOfFuel, w')
    end.

(** [try { body } catch (e) { handler(e) }] *)
Definition try_catch {A : Type} (body : M A) (handler : JsError -> M A) : M A :=
  fun w =>
    match body w with
    | (Raised e, w') => handler e w'
    | other => other
    end.

Declare Scope js_scope.
Delimit Scope js_scope with js.
Notation "x <- m ;; k" := (bind m (fun x => k))
  (at level 61, m at next level, right associativity) : js_scope.
#[local] Open Scope js_scope.

(** [readFileSync(path, 'base64')] *)
Definition readFileSync_base64 (env : Env) (path : string) : M string :=
  match fs env path with
  | inl e => raise e
  | inr bytes => ret (base64 env bytes)
  end.

(** [readFileSync(path).toString('base64')] *)
Definition readFileSync_toString_base64 (env : Env) (path : string) : M string :=
  match fs env path with
  | inl e => raise e
  | inr buffer => ret (base64 env buffer)
  end.

(** [(await ai.models.generateContent(req)).text]: the request is logged,
    then the oracle decides. *)
Definition await_generateContent_text (env : Env) (req : Request) : M JsText :=
  fun w =>
    match generateContent env (List.length w) req with
    | Throws e => (Raised e, (w ++ [req])%list)
    | Responds text => (Returned text, (w ++ [req])%list)
    end.

(** ** Promises *)

(** A promise, seen when it has settled. *)
Definition Promise (A : Type) : Type := Completion A.

(** Calling an async method: its body runs, and whatever it raises
    settles the promise it returns instead of reaching the caller. *)
Definition async_call {A : Type} (m : M A) : M (Promise A) :=
  fun w => let (c, w') := m w in (Returned c, w').

(** [p.then(f)] *)
Definition promise_then {A B : Type} (f : A -> B) (p : Promise A) : Promise B :=
  match p with
  | Returned a => Returned (f a)
  | Raised e => Raised e
  | OutOfFuel => OutOfFuel
  end.

(** The promise [Promise.all(ps)]: the values in the order of [ps], or
    the first rejection. *)
Fixpoint Promise_all {A : Type} (ps : list (Promise A)) : Promise (list A) :=
  match ps with
  | [] => Returned []
  | Returned a :: r =>
      match Promise_all r with
      | Returned l => Returned (a :: l)
      | Raised e => Raised e
      | OutOfFuel => OutOfFuel
      end
  | Raised e :: _ => Raised e
  | OutOfFuel :: _ => OutOfFuel
  end.

(** [await p] *)
Definition await {A : Type} (p : Promise A) : M A := fun w => (p, w).

(** [l.map(f)] and [l.flatMap(f)] for a callback with effects. *)
Fixpoint mapM {A B : Type} (f : A -> M B) (l : list A) : M (list B) :=
  match l with
  | [] => ret []
  | x :: r => y <- f x ;; ys <- mapM f r ;; ret (y :: ys)
  end.

Definition flatMapM {A B : Type} (f : A -> M (list B)) (l : list A) : M (list B) :=
  ls <- mapM f l ;; ret (List.concat ls).

(* ===================================================================== *)
(** * The service                                                         *)
(* ===================================================================== *)

(** The client [new GoogleGenAI({ apiKey })]. *)
Record GoogleGenAI : Type := mkClient { apiKey : string }.

Record GeminiService : Type := mkService {
  ai : GoogleGenAI;
  this_model : string
}.

(** [constructor(apiKey)] *)
Definition constructor (apiKey : JsText) : JsError + GeminiService :=
  match apiKey with
  | Str (String c k) =>
      inr {| ai := mkClient (String c k);
             this_model := "gemini-2.5-flash-preview-04-17" |}
  | _ => inl (mkError (Str "Se requiere una API key de Gemini"))
  end.

(** ** Fixed instructions *)

Definition image_instruction : string :=
  "Examine the image thoroughly. Describe every detail, including all objects, colors, textures, actions, and backgrounds. Note the position, size, and shape of each element. Capture any text, lighting, or patterns. Provide a precise, comprehensive description to fully represent the image without assumptions or interpretations.".

Definition audio_instruction : string :=
  "Listen to the audio carefully. Transcribe every word exactly as spoken, including tone, pauses, and any background sounds. Describe the speaker's accent, speed, and emotional tone. Note any unclear parts and timestamp them. Provide a precise, detailed summary of the content without adding interpretations.".

Definition video_instruction : string :=
  "Watch the video closely. Describe every detail, including all actions, objects, colors, textures, and backgrounds. Note the sequence, timing, and duration of events. Capture any text, lighting, camera angles, or sound elements. If evident, identify and describe the emotional or sentimental tone (e.g., joy, sadness, enthusiasm) based on clear cues like facial expressions, voice tone, or music, without assumptions. For neutral content, such as stock or demonstration videos, note the absence of emotional tone. Provide a precise, comprehensive description to fully represent the video.".

Definition sticker_instruction : string :=
  "Examine the sticker closely. Identify and describe the specific emotions, feelings, or allusions it conveys, such as affection, gratitude, joy, or affirmation. Focus solely on the intended emotional purpose, inferred from clear visual cues like expressions, symbols (e.g., hearts), or actions. Avoid describing the image's content or making assumptions beyond evident emotional intent. Provide a precise, concise analysis of the sticker's emotional message.".

Definition document_instruction : string :=
  "Examine the document meticulously. Extract and list all key factual information, technical specifications, data points, and specific details with precision. Summarize the content accurately, focusing solely on objective information. Exclude any interpretation, sentiment analysis, or assumptions. Ensure the summary is concise, technical, and faithful to the document's content.".

Definition final_preamble : string :=
  "This is the user's text messages and the provided transcriptions of the audio, video, images, stickers, or documents in text format. Respond directly and concisely, continuing the conversation by addressing the user's query or topic based on the transcriptions. Stay relevant, avoid misinterpretations, and do not add unrelated information.".

Definition final_systemInstruction : string :=
  "You are a conversational assistant. Receive the user's messages in text/plain format and any provided transcriptions or descriptions of audio, video, images, stickers, or documents in text format. If available, consider the conversation history to maintain context. Understand the context and intent of the user's messages. Respond concisely and directly, continuing the conversation by addressing the user's query or topic based on the provided content. Stay relevant, accurate, and focused on the objective information or emotional intent conveyed in the transcriptions. Avoid misinterpretations, assumptions, or unrelated information.".

(** ** The two shapes a processor builds *)

(** [{ content: text }] *)
Definition content_result (text : JsText) : ProcessingResult.t :=
  {| ProcessingResult.content := Some text;
     ProcessingResult.processed := None;
     ProcessingResult.error := None |}.

(** [{ processed: false, error: msg }] *)
Definition failed_result (msg : string) : ProcessingResult.t :=
  {| ProcessingResult.content := None;
     ProcessingResult.processed := Some false;
     ProcessingResult.error := Some msg |}.

Section Methods.

Variable self : GeminiService.
Variable env : Env.

(** ** The five processors *)

Definition image_request (data : string) : Request :=
  {| model := this_model self;
     contents := [InlineData "image/jpeg" data; Text image_instruction];
     config := mkConfig 2048 0.85%float None |}.

Definition processImage (imagePath : string) : M ProcessingResult.t :=
  data <- readFileSync_base64 env imagePath ;;
  try_catch
    (text <- await_generateContent_text env (image_request data) ;;
     ret (content_result text))
    (fun _ => ret (failed_result "Error al procesar imagen")).

Definition audio_request (data : string) : Request :=
  {| model := this_model self;
     contents := [Text audio_instruction; InlineData "audio/mp3" data];
     config := mkConfig 2048 0.85%float None |}.

Definition processAudio (audioPath : string) : M ProcessingResult.t :=
  data <- readFileSync_base64 env audioPath ;;
  try_catch
    (text <- await_generateContent_text env (audio_request data) ;;
     ret (content_result text))
    (fun _ => ret (failed_result "Error al procesar audio")).

Definition video_request (data : string) : Request :=
  {| model := this_model self;
     contents := [InlineData "video/mp4" data; Text video_instruction];
     config := mkConfig 2048 0.85%float None |}.

Definition processVideo (videoPath : string) : M ProcessingResult.t :=
  data <- readFileSync_base64 env videoPath ;;
  try_catch
    (text <- await_generateContent_text env (video_request data) ;;
     ret (content_result text))
    (fun _ => ret (failed_result "Error al procesar video")).

Definition sticker_request (data : string) : Request :=
  {| model := this_model self;
     contents := [InlineData "image/jpeg" data; Text sticker_instruction];
     config := mkConfig 2048 1%float None |}.

Definition processSticker (stickerPath : string) : M ProcessingResult.t :=
  data <- readFileSync_base64 env stickerPath ;;
  try_catch
    (text <- await_generateContent_text env (sticker_request data) ;;
     ret (content_result text))
    (fun _ => ret (failed_result "Error al procesar sticker")).

Definition document_request (data : string) : Request :=
  {| model := this_model self;
     contents := [Text document_instruction; InlineData "application/pdf" data];
     config := mkConfig 2048 0.45%float None |}.

Definition processDocument (documentPath : string) : M ProcessingResult.t :=
  data <- readFileSync_toString_base64 env documentPath ;;
  try_catch
    (text <- await_generateContent_text env (document_request data) ;;
     ret (content_result text))
    (fun _ => ret (failed_result "Error al procesar documento")).

(** ** generateFinalResponse *)

(** The block of one item: [item.content ? `\n\n${Type} ${i + 1} ${label}: ${item.content}` : ''] *)
Definition media_block (type : string) (item : ProcessingResult.t) (i : nat)
  : string :=
  match get_content item with
  | Str (String c r) =>
      nl ++ nl ++ capitalize type ++ " " ++ show_nat (i + 1) ++ " "
      ++ (if String.eqb type "audio" then "transcription"
          else if String.eqb type "document" then "summary"
          else "description")
      ++ ": " ++ String c r
  | _ => ""
  end.

(** [contextPrompt ? `\n\nConversation history:\n${contextPrompt}` : ''] *)
Definition history_block (contextPrompt : string) : string :=
  if truthy (Str contextPrompt)
  then nl ++ nl ++ "Conversation history:" ++ nl ++ contextPrompt
  else "".

(** [messages.length > 0 ? `\n\nUser's messages:\n${...join('\n')}` : ''] *)
Definition messages_block (messages : list string) : string :=
  if 0 <? List.length messages
  then nl ++ nl ++ "User's messages:" ++ nl
       ++ join nl (mapi (fun msg i => show_nat (i + 1) ++ ". " ++ msg) messages)
  else "".

(** [Object.entries(results).flatMap(([type, items]) => items.map(...))] *)
Definition media_blocks (results : ResultsObject) : list string :=
  flat_map (fun entry : string * list ProcessingResult.t =>
              let (type, items) := entry in
              mapi (media_block type) items)
           results.

(** The array built at lines 121-127, before [.filter(Boolean)]. *)
Definition contextParts_array (results : ResultsObject) (messages : list string)
           (contextPrompt : string) : list string :=
  final_preamble :: history_block contextPrompt :: messages_block messages
  :: media_blocks results.

(** [Boolean(s)] on a string. *)
Definition nonempty (s : string) : bool := truthy (Str s).

Definition contextParts (results : ResultsObject) (messages : list string)
           (contextPrompt : string) : string :=
  join "" (filter nonempty (contextParts_array results messages contextPrompt)).

Definition maxAttempts : nat := 5.

(** The request of the attempt made when the counter is [attempts]. *)
Definition final_request (prompt : string) (attempts : nat) : Request :=
  {| model := this_model self;
     contents := [Text prompt];
     config := mkConfig 2048 (0.9 + js_number attempts * 0.01)%float
                        (Some final_systemInstruction) |}.

(** The [do ... while] loop; it yields the [text] of the last response.
    [fuel] bounds the number of iterations of the model only. *)
Fixpoint do_while (fuel : nat) (prompt : string) (attempts : nat) : M JsText :=
  match fuel with
  | O => fun w => (OutOfFuel, w)
  | S fuel' =>
      text <- await_generateContent_text env (final_request prompt attempts) ;;
      let attempts := S attempts in
      if no_text text && (attempts <? maxAttempts)
      then do_while fuel' prompt attempts
      else ret text
  end.

Definition empty_response_error : FinalResponse.t :=
  {| FinalResponse.status := "error";
     FinalResponse.message :=
       Some "No se pudo generar una respuesta después de varios intentos";
     FinalResponse.processed := Some true;
     FinalResponse.error :=
       Some "Respuesta vacía después de múltiples intentos";
     FinalResponse.response := None;
     FinalResponse.results := None |}.

Definition success_response (text : JsText) : FinalResponse.t :=
  {| FinalResponse.status := "success";
     FinalResponse.message := None;
     FinalResponse.processed := None;
     FinalResponse.error := None;
     FinalResponse.response := Some text;
     FinalResponse.results := Some (content_result text) |}.

(** [message || 'Error al generar respuesta final'], [message] being what
    [error.message] gave. *)
Definition message_or_default (message : JsText) : string :=
  match message with
  | Str (String c r) => String c r
  | _ => "Error al generar respuesta final"
  end.

(** The object of lines 160-165, once [error.message] is read. *)
Definition caught_error (message : JsText) : FinalResponse.t :=
  {| FinalResponse.status := "error";
     FinalResponse.message := Some "Error al generar respuesta final";
     FinalResponse.processed := Some true;
     FinalResponse.error := Some (message_or_default message);
     FinalResponse.response := None;
     FinalResponse.results := None |}.

(** The TypeError of reading [message] on [undefined] or [null] (the text
    is the one of Node). *)
Definition cannot_read_message (thrown : JsError) : JsError :=
  match thrown with
  | ThrownNull =>
      mkError (Str "Cannot read properties of null (reading 'message')")
  | _ =>
      mkError (Str "Cannot read properties of undefined (reading 'message')")
  end.

(** The [catch (error)] block of lines 159-166: it builds the error
    object, which reads [error.message]; on a thrown [undefined] or [null]
    that reading throws, and nothing catches it. *)
Definition catch_block (error : JsError) : M FinalResponse.t :=
  match error with
  | mkError message => ret (caught_error message)
  | ThrownUndefined | ThrownNull => raise (cannot_read_message error)
  end.

(** [contextPrompt = ''] in the parameter list. *)
Definition contextPrompt_default (contextPrompt : JsText) : string :=
  match contextPrompt with
  | Undefined => ""
  | Str s => s
  end.

Definition generateFinalResponse (fuel : nat) (status : AggregatedStatus)
           (contextPrompt : JsText) : M FinalResponse.t :=
  let prompt :=
    contextParts (results status) (messages status)
                 (contextPrompt_default contextPrompt) in
  try_catch
    (text <- do_while fuel prompt 0 ;;
     if no_text text
     then ret empty_response_error
     else ret (success_response text))
    catch_block.

(** ** processMessage *)

Record MessageInput : Type := mkInput {
  texts : option (list string);
  images : option (list string);
  audios : option (list string);
  videos : option (list string);
  stickers : option (list string);
  documents : option (list string);
  contextPrompt : JsText
}.

(** The methods [this[name]] that [processMessage] can reach. *)
Definition method (name : string) : option (string -> M ProcessingResult.t) :=
  if String.eqb name "processImage" then Some processImage
  else if String.eqb name "processAudio" then Some processAudio
  else if String.eqb name "processVideo" then Some processVideo
  else if String.eqb name "processSticker" then Some processSticker
  else if String.eqb name "processDocument" then Some processDocument
  else None.

(** [obj[k]] *)
Fixpoint obj_get (o : ResultsObject) (k : string)
  : option (list ProcessingResult.t) :=
  match o with
  | [] => None
  | (k', v) :: r => if String.eqb k' k then Some v else obj_get r k
  end.

(** [obj[k] = v]: an existing key keeps its place, a new one goes last. *)
Fixpoint obj_set (o : ResultsObject) (k : string)
         (v : list ProcessingResult.t) : ResultsObject :=
  match o with
  | [] => [(k, v)]
  | (k', v') :: r =>
      if String.eqb k' k then (k', v) :: r else (k', v') :: obj_set r k v
  end.

(** The body of the [forEach] callback. *)
Definition push_result (o : ResultsObject)
           (tr : string * ProcessingResult.t) : ResultsObject :=
  let (type, result) := tr in
  let o1 := match obj_get o type with
            | None => obj_set o type []
            | Some _ => o
            end in
  match obj_get o1 type with
  | Some items => obj_set o1 type (items ++ [result])%list
  | None => o1
  end.

(** [Object.entries(mediaTypes)] *)
Definition mediaTypes (input : MessageInput) : list (string * list string) :=
  [ ("image", with_default [] (images input));
    ("audio", with_default [] (audios input));
    ("video", with_default [] (videos input));
    ("sticker", with_default [] (stickers input));
    ("document", with_default [] (documents input)) ].

(** One unit of work: [this[`process${Type}`](path).then(result => ({ type, result }))] *)
Definition start_unit (type path : string)
  : M (Promise (string * ProcessingResult.t)) :=
  match method ("process" ++ capitalize type) with
  | Some process =>
      p <- async_call (process path) ;;
      ret (promise_then (fun result => (type, result)) p)
  | None => raise (mkError (Str "this[...] is not a function"))
  end.

(** Lines 12-25: the status handed to the synthesis step. *)
Definition aggregate (input : MessageInput) : M AggregatedStatus :=
  let status_messages := with_default [] (texts input) in
  promises <- flatMapM (fun entry : string * list string =>
                          let (type, paths) := entry in
                          mapM (start_unit type) paths)
                       (mediaTypes input) ;;
  results <- await (Promise_all promises) ;;
  ret {| results := fold_left push_result results [];
         messages := status_messages |}.

Definition processMessage (fuel : nat) (input : MessageInput)
  : M FinalResponse.t :=
  status <- aggregate input ;;
  generateFinalResponse fuel status (contextPrompt input).

End Methods.

(* ===================================================================== *)
(** * The media kinds, for statements that range over the five processors *)
(* ===================================================================== *)

Inductive MediaKind : Type := Image | Audio | Video | Sticker | Document.

Definition kind_name (k : MediaKind) : string :=
  match k with
  | Image => "image"
  | Audio => "audio"
  | Video => "video"
  | Sticker => "sticker"
  | Document => "document"
  end.

(** The method that [processMessage] reaches for the kind [k]. *)
Definition processor (self : GeminiService) (env : Env) (k : MediaKind)
  : string -> M ProcessingResult.t :=
  match k with
  | Image => processImage self env
  | Audio => processAudio self env
  | Video => processVideo self env
  | Sticker => processSticker self env
  | Document => processDocument self env
  end.

(** The request a processor sends for a file whose encoding is [data]. *)
Definition kind_request (self : GeminiService) (k : MediaKind) (data : string)
  : Request :=
  match k with
  | Image => image_request self data
  | Audio => audio_request self data
  | Video => video_request self data
  | Sticker => sticker_request self data
  | Document => document_request self data
  end.

(** The fixed message of the failure-shaped result of each kind. *)
Definition kind_error (k : MediaKind) : string :=
  match k with
  | Image => "Error al procesar imagen"
  | Audio => "Error al procesar audio"
  | Video => "Error al procesar video"
  | Sticker => "Error al procesar sticker"
  | Document => "Error al procesar documento"
  end.

(** The paths the caller supplied for a kind, defaults applied. *)
Definition paths_of (input : MessageInput) (k : MediaKind) : list string :=
  match k with
  | Image => with_default [] (images input)
  | Audio => with_default [] (audios input)
  | Video => with_default [] (videos input)
  | Sticker => with_default [] (stickers input)
  | Document => with_default [] (documents input)
  end.

(** ** Shapes of a [ProcessingResult] *)

(** [{ content: <string> }] and nothing else. *)
Definition success_shape (r : ProcessingResult.t) : Prop :=
  exists s : string, r = content_result (Str s).

(** [{ content: <string or undefined> }] and nothing else. *)
Definition content_shape (r : ProcessingResult.t) : Prop :=
  exists text : JsText, r = content_result text.

(** [{ processed: false, error: <string> }] and nothing else. *)
Definition failure_shape (r : ProcessingResult.t) : Prop :=
  exists msg : string, r = failed_result msg.

(** ** Reading the prompt the way the specification words it *)

(** The label of a kind: transcription, summary or description. *)
Definition label_of (type : string) : string :=
  if String.eqb type "audio" then "transcription"
  else if String.eqb type "document" then "summary"
  else "description".

(** ["{Kind} {index+1} {label}: {content}"], after the blank line that
    separates two blocks. *)
Definition labeled_block (type : string) (index : nat) (content : string)
  : string :=
  nl ++ nl ++ capitalize type ++ " " ++ show_nat (index + 1) ++ " "
  ++ label_of type ++ ": " ++ content.

(** An item that has a non-empty content. *)
Definition has_content (item : ProcessingResult.t) : bool :=
  truthy (get_content item).

(** The content of an item as text, empty when there is none. *)
Definition content_string (item : ProcessingResult.t) : string :=
  match get_content item with
  | Str s => s
  | Undefined => ""
  end.

(** The items of one kind with their positions, counted from [start]. *)
Fixpoint indexed_from {A : Type} (start : nat) (l : list A) : list (nat * A) :=
  match l with
  | [] => []
  | x :: r => (start, x) :: indexed_from (S start) r
  end.

(** One labeled block per item that has a content, placed at the item's
    position within its kind. *)
Definition expected_blocks (results : ResultsObject) : list string :=
  flat_map (fun entry : string * list ProcessingResult.t =>
              map (fun ix : nat * ProcessingResult.t =>
                     labeled_block (fst entry) (fst ix) (content_string (snd ix)))
                  (filter (fun ix => has_content (snd ix))
                          (indexed_from 0 (snd entry))))
           results.

(** Two result objects that agree on every key and every [content]. *)
Definition same_contents (r1 r2 : ResultsObject) : Prop :=
  Forall2 (fun e1 e2 : string * list ProcessingResult.t =>
             fst e1 = fst e2 /\ map get_content (snd e1) = map get_content (snd e2))
          r1 r2.

(** ** The attempts of the retry loop *)

(** The prompt [generateFinalResponse] sends for a status and a context. *)
Definition prompt_of (status : AggregatedStatus) (contextPrompt : JsText) : string :=
  contextParts (results status) (messages status)
               (contextPrompt_default contextPrompt).

(** The requests of the attempts [a], [a+1], ..., [a+n-1]. *)
Definition attempts_log (self : GeminiService) (prompt : string) (a n : nat)
  : list Request :=
  map (final_request self prompt) (seq a n).

(** The outcome of the attempt number [i] of a run started on the log [w]
    with the counter at [a]. *)
Definition outcome_at (self : GeminiService) (env : Env) (prompt : string)
           (w : World) (a i : nat) : RemoteOutcome :=
  generateContent env (List.length w + i) (final_request self prompt (a + i)).

(** The attempt number [i] is answered with an empty or blank text. *)
Definition empty_at (self : GeminiService) (env : Env) (prompt : string)
           (w : World) (a i : nat) : Prop :=
  exists text, outcome_at self env prompt w a i = Responds text /\ no_text text = true.

(** The remote call throws [undefined] or [null]. *)
Definition throws_nothing (o : RemoteOutcome) : Prop :=
  o = Throws ThrownUndefined \/ o = Throws ThrownNull.

(** The temperature of the attempt number [n], as line 141 computes it. *)
Definition attempt_temperature (n : nat) : float :=
  (0.9 + js_number n * 0.01)%float.

(** ** Tables of the specification, one row per kind *)

(** Whether the media part comes before the instruction. *)
Definition media_part_first (k : MediaKind) : bool :=
  match k with
  | Image | Video | Sticker => true
  | Audio | Document => false
  end.

Definition kind_temperature (k : MediaKind) : float :=
  match k with
  | Image | Audio | Video => 0.85%float
  | Sticker => 1.0%float
  | Document => 0.45%float
  end.

Definition kind_mimeType (k : MediaKind) : string :=
  match k with
  | Image => "image/jpeg"
  | Audio => "audio/mp3"
  | Video => "video/mp4"
  | Sticker => "image/jpeg"
  | Document => "application/pdf"
  end.

Definition kind_instruction (k : MediaKind) : string :=
  match k with
  | Image => image_instruction
  | Audio => audio_instruction
  | Video => video_instruction
  | Sticker => sticker_instruction
  | Document => document_instruction
  end.

(** The title-cased names of the five kinds. *)
Definition kind_title (k : MediaKind) : string :=
  match k with
  | Image => "Image"
  | Audio => "Audio"
  | Video => "Video"
  | Sticker => "Sticker"
  | Document => "Document"
  end.

(** ** The grouped results and the empty input *)

Definition nonnil {A B : Type} (e : A * list B) : bool :=
  match snd e with
  | [] => false
  | _ :: _ => true
  end.

(** The enumerated list of the user's messages: ["1. m1\n2. m2\n..."]. *)
Definition enumerated_messages (messages : list string) : string :=
  join nl (map (fun im : nat * string => show_nat (fst im + 1) ++ ". " ++ snd im)
               (indexed_from 0 messages)).

(** An input whose collections are all empty or absent. *)
Definition all_empty (input : MessageInput) : Prop :=
  with_default [] (texts input) = []
  /\ forall k, paths_of input k = [].

(** ** The units of work of processMessage *)

Definition all_kinds : list MediaKind := [Image; Audio; Video; Sticker; Document].

(** The units in the order in which [flatMap] starts them: kind after
    kind, and within a kind in the order of the paths. *)
Definition units (input : MessageInput) : list (MediaKind * string) :=
  flat_map (fun k => map (pair k) (paths_of input k)) all_kinds.

(** The request a unit sends: none when its file cannot be read. *)
Definition sent_request (self : GeminiService) (env : Env)
           (u : MediaKind * string) : list Request :=
  match fs env (snd u) with
  | inl _ => []
  | inr bytes => [kind_request self (fst u) (base64 env bytes)]
  end.

Definition media_requests (self : GeminiService) (env : Env)
           (us : list (MediaKind * string)) : list Request :=
  flat_map (sent_request self env) us.

(** The error of the first unit, in starting order, whose file cannot be
    read. *)
Fixpoint first_unreadable (env : Env) (us : list (MediaKind * string))
  : option JsError :=
  match us with
  | [] => None
  | u :: r =>
      match fs env (snd u) with
      | inl e => Some e
      | inr _ => first_unreadable env r
      end
  end.

(** What the processor of kind [k] returns for a file that can be read,
    when its request is the one number [n] of the log. *)
Definition unit_result (self : GeminiService) (env : Env) (k : MediaKind)
           (path : string) (n : nat) : ProcessingResult.t :=
  match fs env path with
  | inr bytes =>
      match generateContent env n (kind_request self k (base64 env bytes)) with
      | Responds text => content_result text
      | Throws _ => failed_result (kind_error k)
      end
  | inl _ => failed_result (kind_error k)
  end.

(** The tagged results of a list of units whose first request is the one
    number [n]. *)
Definition unit_results (self : GeminiService) (env : Env)
           (us : list (MediaKind * string)) (n : nat)
  : list (string * ProcessingResult.t) :=
  mapi_from n (fun u i => (kind_name (fst u), unit_result self env (fst u) (snd u) i))
            us.

(** What [Promise.all] settles to for a list of units whose first request
    is the one number [n]: the first read error, or all the results. *)
Definition settled (self : GeminiService) (env : Env)
           (us : list (MediaKind * string)) (n : nat)
  : Promise (list (string * ProcessingResult.t)) :=
  match first_unreadable env us with
  | Some e => Raised e
  | None => Returned (unit_results self env us n)
  end.

(** The number of paths of the kinds started before [k]. *)
Definition offset (input : MessageInput) (k : MediaKind) : nat :=
  match k with
  | Image => 0
  | Audio => List.length (paths_of input Image)
  | Video => List.length (paths_of input Image) + List.length (paths_of input Audio)
  | Sticker => List.length (paths_of input Image) + List.length (paths_of input Audio)
               + List.length (paths_of input Video)
  | Document => List.length (paths_of input Image) + List.length (paths_of input Audio)
                + List.length (paths_of input Video)
                + List.length (paths_of input Sticker)
  end.

(** The results of the kind [k], path by path, when the first request of
    [processMessage] is the one number [n]. *)
Definition kind_results (self : GeminiService) (env : Env)
           (input : MessageInput) (n : nat) (k : MediaKind)
  : list ProcessingResult.t :=
  mapi_from (n + offset input k) (unit_result self env k) (paths_of input k).

(** The results tagged [type] in a list of tagged results, in order. *)
Definition results_of_type (type : string)
           (l : list (string * ProcessingResult.t)) : list ProcessingResult.t :=
  map snd (filter (fun tr => String.eqb (fst tr) type) l).

(** A printable ASCII character other than the space. *)
Definition visible_byte (m : nat) : bool := (33 <=? m) && (m <=? 126).

(** A string that has at least one such character. *)
Fixpoint has_visible (s : string) : bool :=
  match s with
  | EmptyString => false
  | String a r => visible_byte (nat_of_ascii a) || has_visible r
  end.

(** An outcome that gives an item no content: a throw, or a response
    whose text is missing or empty. *)
Definition no_content_outcome (o : RemoteOutcome) : Prop :=
  match o with
  | Throws _ => True
  | Responds text => truthy text = false
  end.

(** A results object none of whose items has a content. *)
Definition no_contents (o : ResultsObject) : Prop :=
  Forall (fun entry : string * list ProcessingResult.t =>
            Forall (fun item => has_content item = false) (snd entry))
         o.

(** The two shapes of a [FinalResponse]. *)
Definition final_success (r : FinalResponse.t) : Prop :=
  exists s : string,
    no_text (Str s) = false
    /\ r = {| FinalResponse.status := "success";
              FinalResponse.message := None;
              FinalResponse.processed := None;
              FinalResponse.error := None;
              FinalResponse.response := Some (Str s);
              FinalResponse.results := Some (content_result (Str s)) |}.

Definition final_error (r : FinalResponse.t) : Prop :=
  exists m e : string,
    m <> "" /\ e <> ""
    /\ r = {| FinalResponse.status := "error";
              FinalResponse.message := Some m;
              FinalResponse.processed := Some true;
              FinalResponse.error := Some e;
              FinalResponse.response := None;
              FinalResponse.results := None |}.

(* ===================================================================== *)
(** * Stubs and inputs on which the model is run                          *)
(* ===================================================================== *)

Definition a_service : GeminiService :=
  mkService (mkClient "key") "gemini-2.5-flash-preview-04-17".

Definition one_text_status : AggregatedStatus :=
  {| results := []; messages := ["hola"] |}.

(** No file is missing; the remote answers blank text on its first four
    requests and ["Hola"] from the fifth on. *)
Definition stub_text_on_fifth : Env :=
  mkEnv (fun _ => inr "bytes") (fun s => s)
        (fun n _ =>
           if n =? 0 then Responds (Str "")
           else if n =? 1 then Responds Undefined
           else if n <? 4 then Responds (Str "  ")
           else Responds (Str "Hola")).

(** The remote always answers the empty text. *)
Definition stub_always_empty : Env :=
  mkEnv (fun _ => inr "bytes") (fun s => s) (fun _ _ => Responds (Str "")).

(** The remote throws [e] on every request. *)
Definition stub_throws (e : JsError) : Env :=
  mkEnv (fun _ => inr "bytes") (fun s => s) (fun _ _ => Throws e).

(** The remote answers the empty text twice and then throws [e]. *)
Definition stub_throws_on_third (e : JsError) : Env :=
  mkEnv (fun _ => inr "bytes") (fun s => s)
        (fun n _ => if n <? 2 then Responds (Str "") else Throws e).

Definition enoent : JsError :=
  mkError (Str "ENOENT: no such file or directory").

(** The files [/missing.jpg] and [/missing.mp3] do not exist, every other
    file can be read; the remote answers ["ok"]. *)
Definition stub_missing_file : Env :=
  mkEnv (fun path => if String.eqb path "/missing.jpg" then inl enoent
                     else if String.eqb path "/missing.mp3" then inl enoent
                     else inr "bytes")
        (fun s => s)
        (fun _ _ => Responds (Str "ok")).

(** The remote answers a response that has no text. *)
Definition stub_no_text : Env :=
  mkEnv (fun _ => inr "bytes") (fun s => s) (fun _ _ => Responds Undefined).

Definition one_missing_image : MessageInput :=
  {| texts := Some ["hola"];
     images := Some ["/missing.jpg"];
     audios := None; videos := None; stickers := None; documents := None;
     contextPrompt := Undefined |}.

Definition one_missing_audio : MessageInput :=
  {| texts := None;
     images := None;
     audios := Some ["/missing.mp3"];
     videos := None; stickers := None; documents := None;
     contextPrompt := Undefined |}.

Definition two_images_one_document : MessageInput :=
  {| texts := Some ["hola"; "mira esto"];
     images := Some ["a.jpg"; "b.jpg"];
     audios := None;
     videos := Some [];
     stickers := None;
     documents := Some ["informe.pdf"];
     contextPrompt := Undefined |}.

(** Two images, the second one missing, and one document. *)
Definition missing_between_readable : MessageInput :=
  {| texts := Some ["hola"];
     images := Some ["a.jpg"; "/missing.jpg"];
     audios := None; videos := None; stickers := None;
     documents := Some ["informe.pdf"];
     contextPrompt := Undefined |}.

(** Every file can be read and every request throws. *)
Definition stub_throws_everything : Env :=
  mkEnv (fun _ => inr "bytes") (fun s => s)
        (fun _ _ => Throws (mkError (Str "fetch failed"))).

(** The remote answers text on its third request only. *)
Definition stub_text_on_third : Env :=
  mkEnv (fun _ => inr "bytes") (fun s => s)
        (fun n _ => if n =? 2 then Responds (Str "Listo") else Responds (Str "")).

(* ===================================================================== *)
(** * Lemmas on the primitives                                            *)
(* ===================================================================== *)

Lemma append_empty_r (s : string) : s ++ "" = s.
Proof. induction s as [|c s IH]; simpl; [reflexivity | now rewrite IH]. Qed.

Lemma append_assoc (a b c : string) : (a ++ b) ++ c = a ++ (b ++ c).
Proof. induction a as [|x a IH]; simpl; [reflexivity | now rewrite IH]. Qed.

Lemma join_empty_cons (x : string) (l : list string) :
  join "" (x :: l) = x ++ join "" l.
Proof.
  unfold join. destruct l as [|y l]; simpl.
  - now rewrite append_empty_r.
  - reflexivity.
Qed.

Lemma nonempty_false (s : string) : nonempty s = false -> s = "".
Proof. destruct s; simpl; [reflexivity | discriminate]. Qed.

(** Dropping the empty strings does not change the joined text. *)
Lemma join_filter_nonempty (l : list string) :
  join "" (filter nonempty l) = join "" l.
Proof.
  induction l as [|x l IH]; [reflexivity|].
  simpl filter. destruct (nonempty x) eqn:E.
  - now rewrite !join_empty_cons, IH.
  - rewrite join_empty_cons, IH. now rewrite (nonempty_false _ E).
Qed.

Lemma join_empty_app (l1 l2 : list string) :
  join "" (l1 ++ l2) = join "" l1 ++ join "" l2.
Proof.
  induction l1 as [|x l1 IH]; [reflexivity|].
  rewrite <- app_comm_cons, !join_empty_cons, IH. now rewrite append_assoc.
Qed.

Lemma mapi_from_indexed {A B : Type} (f : A -> nat -> B) (l : list A) :
  forall start,
    mapi_from start f l = map (fun ix => f (snd ix) (fst ix)) (indexed_from start l).
Proof.
  induction l as [|x l IH]; intros start; simpl; [reflexivity|].
  now rewrite IH.
Qed.

(** ** The block of one item *)

Lemma media_block_content (type : string) (item : ProcessingResult.t)
      (i : nat) (c : string) :
  get_content item = Str c -> c <> "" ->
  media_block type item i = labeled_block type i c.
Proof.
  intros Hc Hne. unfold media_block, labeled_block, label_of. rewrite Hc.
  destruct c as [|x r]; [congruence | reflexivity].
Qed.

Lemma media_block_no_content (type : string) (item : ProcessingResult.t) (i : nat) :
  has_content item = false -> media_block type item i = "".
Proof.
  unfold has_content, media_block.
  destruct (get_content item) as [|[|x r]]; simpl; congruence.
Qed.

Lemma media_block_has_content (type : string) (item : ProcessingResult.t) (i : nat) :
  has_content item = true ->
  media_block type item i
  = labeled_block type i (content_string item)
  /\ nonempty (media_block type item i) = true.
Proof.
  unfold has_content, content_string. intros H.
  destruct (get_content item) as [|[|x r]] eqn:E; simpl in H; try discriminate.
  split.
  - rewrite (media_block_content type item i (String x r)); [|assumption|discriminate].
    reflexivity.
  - rewrite (media_block_content type item i (String x r)); [|assumption|discriminate].
    reflexivity.
Qed.

Lemma filter_blocks_of_items (type : string) (items : list ProcessingResult.t) :
  forall start,
    filter nonempty (mapi_from start (media_block type) items)
    = map (fun ix : nat * ProcessingResult.t =>
             labeled_block type (fst ix) (content_string (snd ix)))
          (filter (fun ix => has_content (snd ix)) (indexed_from start items)).
Proof.
  induction items as [|item items IH]; intros start; [reflexivity|].
  simpl. destruct (has_content item) eqn:E.
  - destruct (media_block_has_content type item start E) as [Hb Hn].
    rewrite Hn. simpl. now rewrite Hb, IH.
  - rewrite (media_block_no_content type item start E). simpl. apply IH.
Qed.

Lemma filter_media_blocks (results : ResultsObject) :
  filter nonempty (media_blocks results) = expected_blocks results.
Proof.
  unfold media_blocks, expected_blocks.
  induction results as [|[type items] results IH]; [reflexivity|].
  simpl. rewrite filter_app, IH. f_equal.
  unfold mapi. apply filter_blocks_of_items.
Qed.

(* ===================================================================== *)
(** * The retry loop                                                      *)
(* ===================================================================== *)

Section Loop.

Variable self : GeminiService.
Variable env : Env.
Variable prompt : string.

#[local] Abbreviation req := (final_request self prompt).

Lemma do_while_throw (fuel a : nat) (w : World) (e : JsError) :
  generateContent env (List.length w) (req a) = Throws e ->
  do_while self env (S fuel) prompt a w = (Raised e, (w ++ [req a])%list).
Proof.
  intros H. simpl. unfold bind, await_generateContent_text.
  now rewrite H.
Qed.

Lemma do_while_retry (fuel a : nat) (w : World) (text : JsText) :
  generateContent env (List.length w) (req a) = Responds text ->
  no_text text = true -> S a < maxAttempts ->
  do_while self env (S fuel) prompt a w
  = do_while self env fuel prompt (S a) (w ++ [req a])%list.
Proof.
  intros H Hn Hlt. simpl. unfold bind, await_generateContent_text.
  rewrite H, Hn.
  apply Nat.ltb_lt in Hlt. now rewrite Hlt.
Qed.

Lemma do_while_stop (fuel a : nat) (w : World) (text : JsText) :
  generateContent env (List.length w) (req a) = Responds text ->
  no_text text = false \/ maxAttempts <= S a ->
  do_while self env (S fuel) prompt a w = (Returned text, (w ++ [req a])%list).
Proof.
  intros H Hstop. simpl. unfold bind, await_generateContent_text.
  rewrite H.
  destruct Hstop as [Hn | Hge].
  - now rewrite Hn.
  - apply Nat.ltb_ge in Hge. rewrite Hge, andb_false_r. reflexivity.
Qed.

Lemma attempts_log_snoc (a n : nat) :
  attempts_log self prompt a (S n) = (attempts_log self prompt a n ++ [req (a + n)])%list.
Proof.
  unfold attempts_log. rewrite seq_S, map_app. reflexivity.
Qed.

Lemma attempts_log_cons (a n : nat) :
  attempts_log self prompt a (S n) = req a :: attempts_log self prompt (S a) n.
Proof. reflexivity. Qed.

Lemma attempts_log_length (a n : nat) : List.length (attempts_log self prompt a n) = n.
Proof. unfold attempts_log. now rewrite length_map, length_seq. Qed.

(** [k] empty answers in a row, with attempts left: the loop has made
    [k] requests and goes on with the counter at [a + k]. *)
Lemma do_while_skips_empty (k : nat) :
  forall (fuel a : nat) (w : World),
    a + k < maxAttempts ->
    (forall i, i < k -> empty_at self env prompt w a i) ->
    do_while self env (k + fuel) prompt a w
    = do_while self env fuel prompt (a + k) (w ++ attempts_log self prompt a k)%list.
Proof.
  induction k as [|k IH]; intros fuel a w Hlt Hempty.
  - simpl. now rewrite Nat.add_0_r, app_nil_r.
  - destruct (Hempty 0 ltac:(lia)) as [text [Hout Hno]].
    unfold outcome_at in Hout. rewrite !Nat.add_0_r in Hout.
    change (S k + fuel) with (S (k + fuel)).
    rewrite (do_while_retry _ _ _ text Hout Hno ltac:(lia)).
    rewrite IH.
    + replace (S a + k) with (a + S k) by lia.
      now rewrite attempts_log_cons, <- app_assoc.
    + lia.
    + intros i Hi. destruct (Hempty (S i) ltac:(lia)) as [t [Ho Hn]].
      exists t. split; [|assumption].
      unfold outcome_at in *. rewrite length_app. simpl.
      replace (List.length w + 1 + i) with (List.length w + S i) by lia.
      now replace (S (a + i)) with (a + S i) by lia.
Qed.

(** With fuel for the attempts that are left, the loop ends by itself:
    it makes between one and [maxAttempts - a] requests, the ones of the
    attempts [a], [a+1], ..., and never runs out of fuel. *)
Lemma do_while_log (fuel : nat) :
  forall (a : nat) (w : World),
    a < maxAttempts -> maxAttempts - a <= fuel ->
    exists n c,
      1 <= n <= maxAttempts - a
      /\ do_while self env fuel prompt a w = (c, (w ++ attempts_log self prompt a n)%list)
      /\ c <> OutOfFuel.
Proof.
  induction fuel as [|fuel IH]; intros a w Ha Hfuel; [lia|].
  destruct (generateContent env (List.length w) (req a)) as [e|text] eqn:Hout.
  - exists 1, (Raised e). rewrite (do_while_throw _ _ _ e Hout).
    repeat split; try lia; discriminate.
  - destruct (no_text text) eqn:Hno.
    + destruct (Nat.lt_ge_cases (S a) maxAttempts) as [Hlt | Hge].
      * rewrite (do_while_retry _ _ _ text Hout Hno Hlt).
        destruct (IH (S a) (w ++ [req a])%list Hlt ltac:(lia))
          as [n [c [Hn [Hrun Hc]]]].
        exists (S n), c. rewrite Hrun, attempts_log_cons, <- app_assoc.
        repeat split; try lia; assumption.
      * exists 1, (Returned text).
        rewrite (do_while_stop _ _ _ text Hout (or_intror Hge)).
        repeat split; try lia; discriminate.
    + exists 1, (Returned text).
      rewrite (do_while_stop _ _ _ text Hout (or_introl Hno)).
      repeat split; try lia; discriminate.
Qed.

End Loop.

(* ===================================================================== *)
(** * generateFinalResponse                                               *)
(* ===================================================================== *)

Lemma generateFinalResponse_unfold (self : GeminiService) (env : Env)
      (fuel : nat) (status : AggregatedStatus) (ctx : JsText) (w : World) :
  generateFinalResponse self env fuel status ctx w
  = match do_while self env fuel (prompt_of status ctx) 0 w with
    | (Returned text, w') =>
        (Returned (if no_text text then empty_response_error
                   else success_response text), w')
    | (Raised e, w') => catch_block e w'
    | (OutOfFuel, w') => (OutOfFuel, w')
    end.
Proof.
  unfold generateFinalResponse, try_catch, bind, prompt_of.
  destruct (do_while self env fuel _ 0 w) as [[text|e|] w']; try reflexivity.
  destruct (no_text text); reflexivity.
Qed.

(** The loop again, with where its end comes from: it raises what its
    last remote call has thrown, and yields the text that its last remote
    call has answered. *)
Lemma do_while_outcome (self : GeminiService) (env : Env) (prompt : string)
      (fuel : nat) :
  forall (a : nat) (w : World),
    a < maxAttempts -> maxAttempts - a <= fuel ->
    exists n c,
      1 <= n <= maxAttempts - a
      /\ do_while self env fuel prompt a w
         = (c, (w ++ attempts_log self prompt a n)%list)
      /\ c <> OutOfFuel
      /\ (forall e, c = Raised e ->
                    outcome_at self env prompt w a (n - 1) = Throws e)
      /\ (forall text, c = Returned text ->
                       outcome_at self env prompt w a (n - 1) = Responds text).
Proof.
  induction fuel as [|fuel IH]; intros a w Ha Hfuel; [lia|].
  destruct (generateContent env (List.length w) (final_request self prompt a))
    as [e|text] eqn:Hout.
  - exists 1, (Raised e). rewrite (do_while_throw self env prompt _ _ _ e Hout).
    split; [lia|]. split; [reflexivity|]. split; [discriminate|].
    split; [|discriminate].
    intros e' He'. injection He' as <-.
    unfold outcome_at. simpl. now rewrite !Nat.add_0_r.
  - assert (Hone : forall t, Returned text = Returned t ->
                             outcome_at self env prompt w a (1 - 1) = Responds t).
    { intros t Ht. injection Ht as <-.
      unfold outcome_at. simpl. now rewrite !Nat.add_0_r. }
    destruct (no_text text) eqn:Hno.
    + destruct (Nat.lt_ge_cases (S a) maxAttempts) as [Hlt | Hge].
      * rewrite (do_while_retry self env prompt _ _ _ text Hout Hno Hlt).
        destruct (IH (S a) (w ++ [final_request self prompt a])%list Hlt ltac:(lia))
          as [n [c [Hn [Hrun [Hc [Hraised Hreturned]]]]]].
        exists (S n), c. rewrite Hrun, attempts_log_cons, <- app_assoc.
        split; [lia|]. split; [reflexivity|]. split; [assumption|].
        assert (Hshift : outcome_at self env prompt w a (S n - 1)
                         = outcome_at self env prompt
                                      (w ++ [final_request self prompt a])%list
                                      (S a) (n - 1)).
        { unfold outcome_at. rewrite length_app. simpl.
          replace (List.length w + (n - 0)) with (List.length w + 1 + (n - 1))
            by lia.
          now replace (a + (n - 0)) with (S (a + (n - 1))) by lia. }
        rewrite Hshift. split; assumption.
      * exists 1, (Returned text).
        rewrite (do_while_stop self env prompt _ _ _ text Hout (or_intror Hge)).
        split; [lia|]. split; [reflexivity|]. split; [discriminate|].
        split; [discriminate | exact Hone].
    + exists 1, (Returned text).
      rewrite (do_while_stop self env prompt _ _ _ text Hout (or_introl Hno)).
      split; [lia|]. split; [reflexivity|]. split; [discriminate|].
      split; [discriminate | exact Hone].
Qed.

(** With fuel for the five attempts, [generateFinalResponse] ends by
    itself after one to five requests.  It returns a result, except when
    its last remote call has thrown [undefined] or [null]: then the catch
    block throws in its turn and the call raises that TypeError. *)
Lemma generateFinalResponse_outcome (self : GeminiService) (env : Env)
      (fuel : nat) (status : AggregatedStatus) (ctx : JsText) (w : World) :
  maxAttempts <= fuel ->
  exists n c,
    1 <= n <= maxAttempts
    /\ generateFinalResponse self env fuel status ctx w
       = (c, (w ++ attempts_log self (prompt_of status ctx) 0 n)%list)
    /\ ((exists r, c = Returned r
                   /\ (FinalResponse.status r = "success"
                       \/ FinalResponse.status r = "error"))
        \/ (exists e, (e = ThrownUndefined \/ e = ThrownNull)
                      /\ outcome_at self env (prompt_of status ctx) w 0 (n - 1)
                         = Throws e
                      /\ c = Raised (cannot_read_message e))).
Proof.
  intros Hfuel.
  destruct (do_while_outcome self env (prompt_of status ctx) fuel 0 w)
    as [n [c [Hn [Hrun [Hc [Hraised _]]]]]]; [unfold maxAttempts; lia | lia |].
  rewrite generateFinalResponse_unfold, Hrun.
  exists n. destruct c as [text|e|]; [| |congruence].
  - eexists. split; [lia|]. split; [reflexivity|]. left.
    eexists. split; [reflexivity|]. destruct (no_text text); simpl; auto.
  - specialize (Hraised e eq_refl).
    destruct e as [| |m]; eexists; (split; [lia|]); (split; [reflexivity|]).
    + right. exists ThrownUndefined. auto.
    + right. exists ThrownNull. auto.
    + left. eexists. split; [reflexivity|]. simpl; auto.
Qed.

(** The requests of a call, whatever its end. *)
Lemma generateFinalResponse_log (self : GeminiService) (env : Env)
      (fuel : nat) (status : AggregatedStatus) (ctx : JsText) (w : World) :
  maxAttempts <= fuel ->
  exists n,
    1 <= n <= maxAttempts
    /\ snd (generateFinalResponse self env fuel status ctx w)
       = (w ++ attempts_log self (prompt_of status ctx) 0 n)%list.
Proof.
  intros Hfuel.
  destruct (generateFinalResponse_outcome self env fuel status ctx w Hfuel)
    as [n [c [Hn [Hrun _]]]].
  exists n. split; [assumption | now rewrite Hrun].
Qed.

(** When the remote never throws [undefined] or [null],
    [generateFinalResponse] returns a result and does not raise. *)
Lemma generateFinalResponse_returns (self : GeminiService) (env : Env)
      (fuel : nat) (status : AggregatedStatus) (ctx : JsText) (w : World) :
  maxAttempts <= fuel ->
  (forall i req, ~ throws_nothing (generateContent env i req)) ->
  exists n r,
    1 <= n <= maxAttempts
    /\ generateFinalResponse self env fuel status ctx w
       = (Returned r, (w ++ attempts_log self (prompt_of status ctx) 0 n)%list)
    /\ (FinalResponse.status r = "success" \/ FinalResponse.status r = "error").
Proof.
  intros Hfuel Hsafe.
  destruct (generateFinalResponse_outcome self env fuel status ctx w Hfuel)
    as [n [c [Hn [Hrun [[r [-> Hst]] | [e [He [Hout _]]]]]]]].
  - now exists n, r.
  - exfalso. unfold outcome_at in Hout.
    eapply Hsafe. unfold throws_nothing. rewrite Hout.
    destruct He as [-> | ->]; auto.
Qed.

Lemma split_fuel (k fuel : nat) : k < fuel -> exists f, fuel = k + S f.
Proof. intros H. exists (fuel - S k). lia. Qed.

(** [k] empty answers, then an answer that ends the loop. *)
Lemma generateFinalResponse_after_empty (self : GeminiService) (env : Env)
      (fuel : nat) (status : AggregatedStatus) (ctx : JsText) (w : World)
      (k : nat) (text : JsText) :
  maxAttempts <= fuel -> k < maxAttempts ->
  (forall i, i < k -> empty_at self env (prompt_of status ctx) w 0 i) ->
  outcome_at self env (prompt_of status ctx) w 0 k = Responds text ->
  no_text text = false \/ maxAttempts <= S k ->
  generateFinalResponse self env fuel status ctx w
  = (Returned (if no_text text then empty_response_error
               else success_response text),
     (w ++ attempts_log self (prompt_of status ctx) 0 (S k))%list).
Proof.
  intros Hfuel Hk Hempty Hout Hstop.
  destruct (split_fuel k fuel ltac:(lia)) as [f ->].
  rewrite generateFinalResponse_unfold.
  rewrite (do_while_skips_empty self env _ k (S f) 0 w ltac:(simpl; lia) Hempty).
  unfold outcome_at in Hout. simpl in Hout.
  rewrite (do_while_stop self env _ f (0 + k) _ text).
  - now rewrite attempts_log_snoc, app_assoc.
  - rewrite length_app, attempts_log_length. exact Hout.
  - simpl. exact Hstop.
Qed.

(** [k] empty answers, then a call that throws. *)
Lemma generateFinalResponse_after_throw (self : GeminiService) (env : Env)
      (fuel : nat) (status : AggregatedStatus) (ctx : JsText) (w : World)
      (k : nat) (e : JsError) :
  maxAttempts <= fuel -> k < maxAttempts ->
  (forall i, i < k -> empty_at self env (prompt_of status ctx) w 0 i) ->
  outcome_at self env (prompt_of status ctx) w 0 k = Throws e ->
  generateFinalResponse self env fuel status ctx w
  = catch_block e (w ++ attempts_log self (prompt_of status ctx) 0 (S k))%list.
Proof.
  intros Hfuel Hk Hempty Hout.
  destruct (split_fuel k fuel ltac:(lia)) as [f ->].
  rewrite generateFinalResponse_unfold.
  rewrite (do_while_skips_empty self env _ k (S f) 0 w ltac:(simpl; lia) Hempty).
  unfold outcome_at in Hout. simpl in Hout.
  rewrite (do_while_throw self env _ f (0 + k) _ e).
  - now rewrite attempts_log_snoc, app_assoc.
  - rewrite length_app, attempts_log_length. exact Hout.
Qed.

(* ===================================================================== *)
(** * Claims on the retry loop                                            *)
(* ===================================================================== *)

(** C2. When the remote answers empty or blank text on the first four
    attempts, [generateFinalResponse] makes exactly five requests and
    returns without raising: if the fifth answer has text, the result has
    status ['success'] and carries that fifth text; if the fifth answer is
    empty too, the result has status ['error'] and the message
    ['No se pudo generar una respuesta después de varios intentos']. *)
Theorem C2_five_attempts_on_empty_text
        (self : GeminiService) (env : Env) (fuel : nat)
        (status : AggregatedStatus) (ctx : JsText) (w : World) (fifth : JsText) :
  maxAttempts <= fuel ->
  (forall i, i < 4 -> empty_at self env (prompt_of status ctx) w 0 i) ->
  outcome_at self env (prompt_of status ctx) w 0 4 = Responds fifth ->
  exists r,
    generateFinalResponse self env fuel status ctx w
    = (Returned r, (w ++ attempts_log self (prompt_of status ctx) 0 5)%list)
    /\ (no_text fifth = false ->
        FinalResponse.status r = "success"
        /\ FinalResponse.response r = Some fifth
        /\ FinalResponse.results r = Some (content_result fifth))
    /\ (no_text fifth = true ->
        FinalResponse.status r = "error"
        /\ FinalResponse.message r
           = Some "No se pudo generar una respuesta después de varios intentos").
Proof.
  intros Hfuel Hempty Hfifth.
  assert (Hstop : no_text fifth = false \/ maxAttempts <= 5)
    by (right; unfold maxAttempts; lia).
  pose proof (generateFinalResponse_after_empty self env fuel status ctx w 4 fifth
                Hfuel ltac:(unfold maxAttempts; lia) Hempty Hfifth Hstop) as Hrun.
  eexists. split; [exact Hrun|].
  split; intros Hno; rewrite Hno; simpl; auto.
Qed.

Lemma C2_five_attempts_on_empty_text_witness :
  exists r,
    generateFinalResponse a_service stub_text_on_fifth 5 one_text_status Undefined []
    = (Returned r,
       ([] ++ attempts_log a_service (prompt_of one_text_status Undefined) 0 5)%list)
    /\ (no_text (Str "Hola") = false ->
        FinalResponse.status r = "success"
        /\ FinalResponse.response r = Some (Str "Hola")
        /\ FinalResponse.results r = Some (content_result (Str "Hola")))
    /\ (no_text (Str "Hola") = true ->
        FinalResponse.status r = "error"
        /\ FinalResponse.message r
           = Some "No se pudo generar una respuesta después de varios intentos").
Proof.
  apply (C2_five_attempts_on_empty_text
           a_service stub_text_on_fifth 5 one_text_status Undefined [] (Str "Hola")).
  - unfold maxAttempts. lia.
  - intros i Hi. unfold empty_at, outcome_at.
    destruct i as [|[|[|[|i]]]]; try lia; simpl; eexists; split; reflexivity.
  - reflexivity.
Defined.

(** The claim of C3 read to the letter fails in two ways.  When the thrown
    error has an empty message, the [error] field is the fixed text, not
    that message.  When the thrown value is [undefined], the catch block
    throws while it reads [error.message], and the call raises. *)
Lemma C3_counterexample_thrown_values :
  (generateContent (stub_throws (mkError (Str ""))) 0
                   (final_request a_service (prompt_of one_text_status Undefined) 0)
   = Throws (mkError (Str ""))
   /\ exists r w',
       generateFinalResponse a_service (stub_throws (mkError (Str ""))) 5
                             one_text_status Undefined []
       = (Returned r, w')
       /\ FinalResponse.error r = Some "Error al generar respuesta final"
       /\ FinalResponse.error r <> Some "")
  /\ (generateContent (stub_throws ThrownUndefined) 0
                      (final_request a_service (prompt_of one_text_status Undefined) 0)
      = Throws ThrownUndefined
      /\ generateFinalResponse a_service (stub_throws ThrownUndefined) 5
                               one_text_status Undefined []
         = (Raised (mkError
                      (Str "Cannot read properties of undefined (reading 'message')")),
            [final_request a_service (prompt_of one_text_status Undefined) 0])).
Proof.
  split.
  - split; [reflexivity|].
    eexists. eexists. split; [reflexivity|].
    split; [reflexivity | discriminate].
  - split; reflexivity.
Qed.

(** C3 (amended). If the remote call throws, at some attempt, a value
    other than [undefined] or [null], the earlier attempts having answered
    empty text, [generateFinalResponse] makes no further request and
    returns, without raising, a result with status ['error'] whose [error]
    field is the message of the thrown value when that message is a
    non-empty string, and the fixed text ['Error al generar respuesta
    final'] when the message is empty or absent. *)
Theorem C3_throw_aborts_with_error_result
        (self : GeminiService) (env : Env) (fuel : nat)
        (status : AggregatedStatus) (ctx : JsText) (w : World)
        (k : nat) (thrown_message : JsText) :
  maxAttempts <= fuel -> k < maxAttempts ->
  (forall i, i < k -> empty_at self env (prompt_of status ctx) w 0 i) ->
  outcome_at self env (prompt_of status ctx) w 0 k
  = Throws (mkError thrown_message) ->
  exists r,
    generateFinalResponse self env fuel status ctx w
    = (Returned r, (w ++ attempts_log self (prompt_of status ctx) 0 (S k))%list)
    /\ FinalResponse.status r = "error"
    /\ (forall m, thrown_message = Str m -> m <> "" ->
                  FinalResponse.error r = Some m)
    /\ (thrown_message = Undefined \/ thrown_message = Str "" ->
        FinalResponse.error r = Some "Error al generar respuesta final").
Proof.
  intros Hfuel Hk Hempty Hthrow.
  exists (caught_error thrown_message). split.
  - now rewrite (generateFinalResponse_after_throw
                   self env fuel status ctx w k _ Hfuel Hk Hempty Hthrow).
  - split; [reflexivity|]. unfold caught_error, message_or_default. simpl. split.
    + intros m Hm Hne. rewrite Hm. destruct m; [congruence | reflexivity].
    + intros [Hm | Hm]; rewrite Hm; reflexivity.
Qed.

Lemma C3_throw_aborts_with_error_result_witness :
  exists r,
    generateFinalResponse a_service (stub_throws_on_third (mkError (Str "503 Service Unavailable")))
                          5 one_text_status (Str "antes") []
    = (Returned r,
       ([] ++ attempts_log a_service (prompt_of one_text_status (Str "antes")) 0 3)%list)
    /\ FinalResponse.status r = "error"
    /\ (forall m, Str "503 Service Unavailable" = Str m -> m <> "" ->
                  FinalResponse.error r = Some m)
    /\ (Str "503 Service Unavailable" = Undefined
        \/ Str "503 Service Unavailable" = Str "" ->
        FinalResponse.error r = Some "Error al generar respuesta final").
Proof.
  apply (C3_throw_aborts_with_error_result
           a_service (stub_throws_on_third (mkError (Str "503 Service Unavailable")))
           5 one_text_status (Str "antes") [] 2
           (Str "503 Service Unavailable")).
  - unfold maxAttempts. lia.
  - unfold maxAttempts. lia.
  - intros i Hi. unfold empty_at, outcome_at.
    destruct i as [|[|i]]; try lia; simpl; eexists; split; reflexivity.
  - reflexivity.
Defined.

(** A thrown [undefined] or [null] makes the call raise: the catch block
    throws the TypeError of reading [error.message]. *)
Lemma generateFinalResponse_throw_nothing (self : GeminiService) (env : Env)
      (fuel : nat) (status : AggregatedStatus) (ctx : JsText) (w : World)
      (k : nat) (e : JsError) :
  maxAttempts <= fuel -> k < maxAttempts ->
  (forall i, i < k -> empty_at self env (prompt_of status ctx) w 0 i) ->
  outcome_at self env (prompt_of status ctx) w 0 k = Throws e ->
  e = ThrownUndefined \/ e = ThrownNull ->
  generateFinalResponse self env fuel status ctx w
  = (Raised (cannot_read_message e),
     (w ++ attempts_log self (prompt_of status ctx) 0 (S k))%list).
Proof.
  intros Hfuel Hk Hempty Hthrow He.
  rewrite (generateFinalResponse_after_throw
             self env fuel status ctx w k _ Hfuel Hk Hempty Hthrow).
  destruct He as [-> | ->]; reflexivity.
Qed.

Lemma attempts_log_nth (self : GeminiService) (prompt : string) (n m : nat) :
  m < n ->
  nth_error (attempts_log self prompt 0 n) m = Some (final_request self prompt m).
Proof.
  intros H. unfold attempts_log.
  rewrite nth_error_map, nth_error_seq.
  apply Nat.ltb_lt in H. rewrite H. reflexivity.
Qed.

Lemma attempt_temperature_increasing (m n : nat) :
  m < n -> n < maxAttempts ->
  PrimFloat.ltb (attempt_temperature m) (attempt_temperature n) = true.
Proof.
  unfold maxAttempts. intros Hmn Hn.
  destruct n as [|[|[|[|[|n]]]]]; try lia;
    destruct m as [|[|[|[|m]]]]; try lia; reflexivity.
Qed.

(** C7. The request of the attempt number [n] of [generateFinalResponse]
    (the initial attempt being number 0) has the sampling temperature
    [0.9 + n * 0.01], computed on doubles: it is 0.9 at the initial attempt
    and greater at every retry than at all attempts before it. *)
Theorem C7_temperature_of_attempt
        (self : GeminiService) (env : Env) (fuel : nat)
        (status : AggregatedStatus) (ctx : JsText) (w : World)
        (n : nat) (req : Request) :
  maxAttempts <= fuel ->
  nth_error (snd (generateFinalResponse self env fuel status ctx w))
            (List.length w + n) = Some req ->
  temperature (config req) = (0.9 + js_number n * 0.01)%float
  /\ (n = 0 -> temperature (config req) = 0.9%float)
  /\ (forall m, m < n ->
        PrimFloat.ltb (attempt_temperature m) (temperature (config req)) = true).
Proof.
  intros Hfuel Hnth.
  destruct (generateFinalResponse_log self env fuel status ctx w Hfuel)
    as [k [Hk Hrun]].
  rewrite Hrun in Hnth.
  rewrite nth_error_app2 in Hnth by lia.
  replace (List.length w + n - List.length w) with n in Hnth by lia.
  assert (Hn : n < k).
  { rewrite <- (attempts_log_length self (prompt_of status ctx) 0 k).
    apply nth_error_Some. congruence. }
  rewrite attempts_log_nth in Hnth by assumption.
  injection Hnth as <-. simpl.
  split; [reflexivity|]. split.
  - intros ->. reflexivity.
  - intros m Hm. apply attempt_temperature_increasing; lia.
Qed.

Lemma C7_temperature_of_attempt_witness :
  temperature (config (final_request a_service
                                     (prompt_of one_text_status Undefined) 4))
  = (0.9 + js_number 4 * 0.01)%float
  /\ (4 = 0 ->
      temperature (config (final_request a_service
                                         (prompt_of one_text_status Undefined) 4))
      = 0.9%float)
  /\ (forall m, m < 4 ->
        PrimFloat.ltb (attempt_temperature m)
                      (temperature (config (final_request a_service
                                              (prompt_of one_text_status Undefined) 4)))
        = true).
Proof.
  apply (C7_temperature_of_attempt
           a_service stub_always_empty 5 one_text_status Undefined [] 4).
  - unfold maxAttempts. lia.
  - reflexivity.
Defined.

(* ===================================================================== *)
(** * The media processors                                                *)
(* ===================================================================== *)

(** The whole behaviour of a processor: a file that cannot be read makes
    it raise before any request; otherwise it sends one request and
    returns a result whatever the remote does. *)
Lemma processor_run (self : GeminiService) (env : Env) (k : MediaKind)
      (path : string) (w : World) :
  processor self env k path w
  = match fs env path with
    | inl e => (Raised e, w)
    | inr bytes =>
        let req := kind_request self k (base64 env bytes) in
        match generateContent env (List.length w) req with
        | Responds text => (Returned (content_result text), (w ++ [req])%list)
        | Throws _ => (Returned (failed_result (kind_error k)), (w ++ [req])%list)
        end
    end.
Proof.
  destruct k; simpl;
    unfold processImage, processAudio, processVideo, processSticker,
           processDocument, readFileSync_base64, readFileSync_toString_base64,
           bind, try_catch, await_generateContent_text, raise, ret;
    (destruct (fs env path) as [e|bytes]; [reflexivity|]);
    match goal with
    | |- context [generateContent env ?n ?r] =>
        destruct (generateContent env n r); reflexivity
    end.
Qed.

(** The names [processMessage] builds reach the five processors. *)
Lemma method_of_kind (self : GeminiService) (env : Env) (k : MediaKind) :
  method self env ("process" ++ capitalize (kind_name k))
  = Some (processor self env k).
Proof. destruct k; reflexivity. Qed.

(** C6. A processor sends at most one request, and exactly one when the
    file can be read.  That request has exactly two parts, the media part
    first for image, video and sticker and the instruction first for audio
    and document; its token cap is 2048 and its temperature is 0.85 for
    image, audio and video, 1.0 for sticker and 0.45 for document. *)
Theorem C6_processor_request
        (self : GeminiService) (env : Env) (k : MediaKind)
        (path : string) (w : World) :
  exists sent : list Request,
    snd (processor self env k path w) = (w ++ sent)%list
    /\ (forall bytes, fs env path = inr bytes ->
                      sent = [kind_request self k (base64 env bytes)])
    /\ (forall e, fs env path = inl e -> sent = [])
    /\ forall req, In req sent ->
         List.length (contents req) = 2
         /\ (exists data,
               contents req
               = if media_part_first k
                 then [InlineData (kind_mimeType k) data; Text (kind_instruction k)]
                 else [Text (kind_instruction k); InlineData (kind_mimeType k) data])
         /\ maxOutputTokens (config req) = 2048
         /\ temperature (config req) = kind_temperature k
         /\ model req = this_model self.
Proof.
  rewrite processor_run.
  destruct (fs env path) as [e|bytes].
  - exists []. simpl. rewrite app_nil_r.
    repeat split; try discriminate; try reflexivity; contradiction.
  - exists [kind_request self k (base64 env bytes)].
    split; [|split; [|split]].
    + cbv zeta. destruct (generateContent env _ _); reflexivity.
    + intros b Hb. now injection Hb as <-.
    + discriminate.
    + intros req [<- | []].
      destruct k; simpl; repeat split; try reflexivity; eexists; reflexivity.
Qed.

(** ** A file that cannot be read *)

(** C1 (the code departs from the claim). With one image path that cannot
    be read and one text message, [processImage] raises the error of the
    file system instead of returning a failure-shaped result, and
    [processMessage] raises it too: no request is sent, the synthesis step
    is not reached and no result with a [status] field is returned. *)
Theorem C1_unreadable_image_escapes :
  processImage a_service stub_missing_file "/missing.jpg" [] = (Raised enoent, [])
  /\ processMessage a_service stub_missing_file 5 one_missing_image []
     = (Raised enoent, []).
Proof. split; reflexivity. Qed.

(** The read of every processor is outside its [try], so a failed read is
    raised by each of the five. *)
Lemma unreadable_file_raises (self : GeminiService) (env : Env) (k : MediaKind)
      (path : string) (w : World) (e : JsError) :
  fs env path = inl e -> processor self env k path w = (Raised e, w).
Proof. intros H. now rewrite processor_run, H. Qed.

(** ** The constructor *)

Lemma constructor_raises_iff (apiKey : JsText) :
  (exists e, constructor apiKey = inl e) <-> (apiKey = Undefined \/ apiKey = Str "").
Proof.
  destruct apiKey as [|[|c k]]; simpl; split; intros H.
  - now left.
  - eexists; reflexivity.
  - now right.
  - eexists; reflexivity.
  - destruct H as [e He]. discriminate.
  - destruct H as [H | H]; discriminate.
Qed.

Lemma constructor_succeeds (key : string) :
  key <> "" ->
  constructor (Str key)
  = inr (mkService (mkClient key) "gemini-2.5-flash-preview-04-17").
Proof. destruct key; [congruence | reflexivity]. Qed.

(** C9 (the code departs from the claim). The constructor does raise
    exactly on a missing or empty credential, but it is not the only place
    where an error escapes: a service built from a valid credential raises
    from [processAudio] and from [processMessage] when a file cannot be
    read. *)
Theorem C9_error_escapes_outside_constructor :
  (forall apiKey,
      (exists e, constructor apiKey = inl e)
      <-> (apiKey = Undefined \/ apiKey = Str ""))
  /\ constructor (Str "key") = inr a_service
  /\ processAudio a_service stub_missing_file "/missing.mp3" [] = (Raised enoent, [])
  /\ processMessage a_service stub_missing_file 5 one_missing_audio []
     = (Raised enoent, []).
Proof.
  split; [exact constructor_raises_iff|]. repeat split; reflexivity.
Qed.

(** ** The shapes of the results *)

(** The claim of C8 read to the letter fails when the remote call
    succeeds with a response that has no text: the processor returns
    [{ content: undefined }], which is neither a content that is a string
    nor the failure shape. *)
Lemma C8_counterexample_undefined_content :
  exists r w',
    processImage a_service stub_no_text "a.jpg" [] = (Returned r, w')
    /\ ProcessingResult.content r = Some Undefined
    /\ ~ success_shape r
    /\ ~ failure_shape r.
Proof.
  eexists. eexists. split; [reflexivity|]. split; [reflexivity|].
  split; intros [x Hx]; discriminate.
Qed.

(** C8 (amended). For a media item whose file can be read, the processor
    returns, without raising, exactly one of two shapes: [{ content: text }]
    when the remote call succeeds, [text] being the text of the response (a
    string, or [undefined] when the response has none), or
    [{ processed: false, error: <the fixed message of the kind> }] when the
    remote call throws.  The two shapes exclude each other, and a result
    has no other property. *)
Theorem C8_result_has_one_shape
        (self : GeminiService) (env : Env) (k : MediaKind)
        (path bytes : string) (w : World) :
  fs env path = inr bytes ->
  exists r,
    processor self env k path w
    = (Returned r, (w ++ [kind_request self k (base64 env bytes)])%list)
    /\ (forall text,
          generateContent env (List.length w) (kind_request self k (base64 env bytes))
          = Responds text ->
          r = content_result text)
    /\ (forall e,
          generateContent env (List.length w) (kind_request self k (base64 env bytes))
          = Throws e ->
          r = failed_result (kind_error k))
    /\ (content_shape r \/ failure_shape r)
    /\ ~ (content_shape r /\ failure_shape r)
    /\ (forall s, ProcessingResult.content r = Some (Str s) -> success_shape r).
Proof.
  intros Hread. rewrite processor_run, Hread. cbv zeta.
  destruct (generateContent env _ _) as [e|text].
  - exists (failed_result (kind_error k)).
    split; [reflexivity|]. split; [discriminate|]. split; [reflexivity|].
    split; [right; eexists; reflexivity|].
    split; [intros [[t Ht] _]; discriminate | discriminate].
  - exists (content_result text).
    split; [reflexivity|]. split; [intros t Ht; congruence|].
    split; [discriminate|].
    split; [left; eexists; reflexivity|].
    split; [intros [_ [m Hm]]; discriminate|].
    intros s Hs. simpl in Hs. injection Hs as ->. eexists; reflexivity.
Qed.

Lemma C8_result_has_one_shape_witness :
  exists r,
    processor a_service stub_missing_file Document "informe.pdf" []
    = (Returned r,
       ([] ++ [kind_request a_service Document
                            (base64 stub_missing_file "bytes")])%list)
    /\ (forall text,
          generateContent stub_missing_file (List.length (@nil Request))
            (kind_request a_service Document (base64 stub_missing_file "bytes"))
          = Responds text ->
          r = content_result text)
    /\ (forall e,
          generateContent stub_missing_file (List.length (@nil Request))
            (kind_request a_service Document (base64 stub_missing_file "bytes"))
          = Throws e ->
          r = failed_result (kind_error Document))
    /\ (content_shape r \/ failure_shape r)
    /\ ~ (content_shape r /\ failure_shape r)
    /\ (forall s, ProcessingResult.content r = Some (Str s) -> success_shape r).
Proof.
  apply (C8_result_has_one_shape
           a_service stub_missing_file Document "informe.pdf" "bytes" []).
  reflexivity.
Defined.

(* ===================================================================== *)
(** * The fan-out and the grouping of processMessage                      *)
(* ===================================================================== *)

Lemma Promise_all_returned {A : Type} (l : list A) :
  Promise_all (map Returned l) = Returned l.
Proof. induction l as [|x l IH]; simpl; [reflexivity | now rewrite IH]. Qed.

(** ** Objects *)

Lemma obj_get_app_absent (o : ResultsObject) (k k' : string)
      (v : list ProcessingResult.t) :
  k <> k' -> obj_get (o ++ [(k, v)]) k' = obj_get o k'.
Proof.
  intros Hne. induction o as [|[k0 v0] o IH]; simpl.
  - destruct (String.eqb_spec k k'); [contradiction | reflexivity].
  - destruct (String.eqb k0 k'); [reflexivity | exact IH].
Qed.

Lemma obj_get_app_new (o : ResultsObject) (k : string)
      (v : list ProcessingResult.t) :
  obj_get o k = None -> obj_get (o ++ [(k, v)]) k = Some v.
Proof.
  induction o as [|[k0 v0] o IH]; simpl; intros H.
  - now rewrite String.eqb_refl.
  - destruct (String.eqb k0 k); [discriminate | now apply IH].
Qed.

Lemma obj_set_absent (o : ResultsObject) (k : string)
      (v : list ProcessingResult.t) :
  obj_get o k = None -> obj_set o k v = (o ++ [(k, v)])%list.
Proof.
  induction o as [|[k0 v0] o IH]; simpl; intros H; [reflexivity|].
  destruct (String.eqb k0 k); [discriminate | now rewrite IH].
Qed.

Lemma obj_set_last (o : ResultsObject) (k : string)
      (v v' : list ProcessingResult.t) :
  obj_get o k = None -> obj_set (o ++ [(k, v)]) k v' = (o ++ [(k, v')])%list.
Proof.
  induction o as [|[k0 v0] o IH]; simpl; intros H.
  - now rewrite String.eqb_refl.
  - destruct (String.eqb k0 k); [discriminate | now rewrite IH].
Qed.

(** The first result of a kind creates its key, after the keys that are
    already there. *)
Lemma push_result_new (o : ResultsObject) (k : string) (r : ProcessingResult.t) :
  obj_get o k = None -> push_result o (k, r) = (o ++ [(k, [r])])%list.
Proof.
  intros H. unfold push_result. rewrite H. cbv beta iota zeta.
  rewrite (obj_set_absent o k [] H), (obj_get_app_new o k [] H).
  apply obj_set_last. exact H.
Qed.

(** A later result of the kind goes at the end of its list. *)
Lemma push_result_last (o : ResultsObject) (k : string)
      (items : list ProcessingResult.t) (r : ProcessingResult.t) :
  obj_get o k = None ->
  push_result (o ++ [(k, items)]) (k, r) = (o ++ [(k, items ++ [r])])%list.
Proof.
  intros H. unfold push_result.
  rewrite (obj_get_app_new o k items H). cbv beta iota zeta.
  rewrite (obj_get_app_new o k items H). apply obj_set_last. exact H.
Qed.

Lemma fold_push_last (k : string) (rs : list ProcessingResult.t) :
  forall (o : ResultsObject) (items : list ProcessingResult.t),
    obj_get o k = None ->
    fold_left push_result (map (pair k) rs) (o ++ [(k, items)])%list
    = (o ++ [(k, items ++ rs)])%list.
Proof.
  induction rs as [|r rs IH]; intros o items H; cbn [map fold_left].
  - now rewrite app_nil_r.
  - rewrite (push_result_last o k items r H), IH by assumption.
    now rewrite <- app_assoc.
Qed.

(** The results of one kind arrive in a row: they create one key that
    holds them in their order, and no key when there are none. *)
Lemma fold_push_group (k : string) (rs : list ProcessingResult.t)
      (o : ResultsObject) :
  obj_get o k = None ->
  fold_left push_result (map (pair k) rs) o = (o ++ filter nonnil [(k, rs)])%list.
Proof.
  intros H. destruct rs as [|r rs]; cbn [map fold_left filter nonnil snd].
  - now rewrite app_nil_r.
  - rewrite (push_result_new o k r H).
    now rewrite (fold_push_last k rs o [r] H).
Qed.

(** The results of several kinds, kind after kind. *)
Lemma fold_push_groups (groups : list (string * list ProcessingResult.t)) :
  forall o : ResultsObject,
    NoDup (map fst groups) ->
    (forall g, In g groups -> obj_get o (fst g) = None) ->
    fold_left push_result
              (flat_map (fun g => map (pair (fst g)) (snd g)) groups) o
    = (o ++ filter nonnil groups)%list.
Proof.
  induction groups as [|[k rs] groups IH]; intros o Hnd Habs.
  - simpl. now rewrite app_nil_r.
  - replace (filter nonnil ((k, rs) :: groups))
      with (filter nonnil [(k, rs)] ++ filter nonnil groups)%list
      by (destruct rs; reflexivity).
    simpl flat_map. rewrite fold_left_app.
    rewrite (fold_push_group k rs o (Habs (k, rs) (or_introl eq_refl))).
    inversion Hnd as [|x l Hnotin Hnd' Heq]; subst.
    rewrite IH; [now rewrite app_assoc | assumption |].
    intros g Hg.
    assert (Hne : k <> fst g).
    { intros ->. apply Hnotin. now apply in_map. }
    destruct rs as [|r rs]; simpl.
    + rewrite app_nil_r. apply Habs. now right.
    + rewrite (obj_get_app_absent o k (fst g) _ Hne). apply Habs. now right.
Qed.

(** ** The units of work *)

Lemma start_unit_run (self : GeminiService) (env : Env) (k : MediaKind)
      (path : string) (w : World) :
  start_unit self env (kind_name k) path w
  = (Returned (promise_then (fun result => (kind_name k, result))
                            (fst (processor self env k path w))),
     snd (processor self env k path w)).
Proof.
  unfold start_unit. rewrite method_of_kind.
  unfold bind, async_call, ret.
  now destruct (processor self env k path w).
Qed.

(** When every file of a kind can be read, every promise of that kind is
    fulfilled, one per path and in the order of the paths. *)
Lemma mapM_start_unit_readable (self : GeminiService) (env : Env)
      (k : MediaKind) (paths : list string) :
  forall w : World,
    (forall path, In path paths -> exists bytes, fs env path = inr bytes) ->
    exists rs w',
      mapM (start_unit self env (kind_name k)) paths w
      = (Returned (map Returned (map (pair (kind_name k)) rs)), w')
      /\ List.length rs = List.length paths.
Proof.
  induction paths as [|path paths IH]; intros w Hread.
  - exists [], w. split; reflexivity.
  - destruct (Hread path (or_introl eq_refl)) as [bytes Hb].
    simpl mapM. unfold bind at 1. rewrite start_unit_run, processor_run, Hb.
    cbv zeta.
    destruct (generateContent env _ _) as [e|text]; simpl fst; simpl snd;
      unfold bind;
      match goal with
      | |- context [mapM _ paths ?w1] =>
          destruct (IH w1 (fun p Hp => Hread p (or_intror Hp)))
            as [rs [w' [Hrun Hlen]]]
      end;
      rewrite Hrun; simpl.
    + exists (failed_result (kind_error k) :: rs), w'. simpl. now rewrite Hlen.
    + exists (content_result text :: rs), w'. simpl. now rewrite Hlen.
Qed.

(** The status [processMessage] builds when every file can be read: the
    kinds that have results, in the order image, audio, video, sticker,
    document, each with one result per path. *)
Lemma aggregate_readable (self : GeminiService) (env : Env)
      (input : MessageInput) (w : World) :
  (forall k path, In path (paths_of input k) -> exists bytes, fs env path = inr bytes) ->
  exists (rs : MediaKind -> list ProcessingResult.t) (w' : World),
    aggregate self env input w
    = (Returned {| results :=
                     filter nonnil
                            (map (fun k => (kind_name k, rs k))
                                 [Image; Audio; Video; Sticker; Document]);
                   messages := with_default [] (texts input) |}, w')
    /\ forall k, List.length (rs k) = List.length (paths_of input k).
Proof.
  intros Hread.
  destruct (mapM_start_unit_readable self env Image (paths_of input Image) w
              (Hread Image)) as [r1 [w1 [H1 L1]]].
  destruct (mapM_start_unit_readable self env Audio (paths_of input Audio) w1
              (Hread Audio)) as [r2 [w2 [H2 L2]]].
  destruct (mapM_start_unit_readable self env Video (paths_of input Video) w2
              (Hread Video)) as [r3 [w3 [H3 L3]]].
  destruct (mapM_start_unit_readable self env Sticker (paths_of input Sticker) w3
              (Hread Sticker)) as [r4 [w4 [H4 L4]]].
  destruct (mapM_start_unit_readable self env Document (paths_of input Document) w4
              (Hread Document)) as [r5 [w5 [H5 L5]]].
  exists (fun k => match k with
                   | Image => r1 | Audio => r2 | Video => r3
                   | Sticker => r4 | Document => r5
                   end), w5.
  split; [|intros []; assumption].
  unfold aggregate, flatMapM, mediaTypes. simpl mapM.
  simpl in H1, H2, H3, H4, H5.
  unfold bind. rewrite H1, H2, H3, H4, H5. unfold ret, await.
  simpl List.concat. rewrite app_nil_r.
  rewrite <- !map_app, Promise_all_returned.
  f_equal. f_equal.
  pose proof (fold_push_groups
                [("image", r1); ("audio", r2); ("video", r3);
                 ("sticker", r4); ("document", r5)] []) as Hfold.
  simpl flat_map in Hfold. rewrite app_nil_r in Hfold.
  rewrite Hfold; [reflexivity | | intros g _; reflexivity].
  repeat constructor; simpl; intuition discriminate.
Qed.

Lemma obj_get_None_iff (o : ResultsObject) (k : string) :
  obj_get o k = None <-> ~ In k (map fst o).
Proof.
  induction o as [|[k0 v0] o IH]; simpl.
  - tauto.
  - destruct (String.eqb_spec k0 k) as [-> | Hne].
    + split; [discriminate | intros H; exfalso; apply H; now left].
    + rewrite IH. tauto.
Qed.

Lemma grouped_get (rs : MediaKind -> list ProcessingResult.t) (k : MediaKind) :
  obj_get (filter nonnil (map (fun k => (kind_name k, rs k))
                              [Image; Audio; Video; Sticker; Document]))
          (kind_name k)
  = match rs k with
    | [] => None
    | _ :: _ => Some (rs k)
    end.
Proof.
  simpl map. unfold nonnil.
  destruct k; simpl;
    destruct (rs Image), (rs Audio), (rs Video), (rs Sticker), (rs Document);
    reflexivity.
Qed.

Lemma grouped_keys (rs : MediaKind -> list ProcessingResult.t) (key : string) :
  In key (map fst (filter nonnil (map (fun k => (kind_name k, rs k))
                                      [Image; Audio; Video; Sticker; Document]))) ->
  exists k, key = kind_name k.
Proof.
  intros H. apply in_map_iff in H. destruct H as [[k0 v0] [Hk Hin]].
  apply filter_In in Hin. destruct Hin as [Hin _]. simpl in Hk, Hin. subst k0.
  destruct Hin as [H | [H | [H | [H | [H | []]]]]]; injection H as <- _.
  - now exists Image.
  - now exists Audio.
  - now exists Video.
  - now exists Sticker.
  - now exists Document.
Qed.

(** C10. When no processor's promise rejects, that is when every supplied
    file can be read, [processMessage] builds a status whose [messages] are
    the caller's texts, unchanged and in order, and whose [results] have a
    key for a kind if and only if at least one path of that kind was
    supplied; the list under a key has exactly one result per supplied path
    of that kind, a kind without paths has no key at all, and there is no
    other key. *)
Theorem C10_aggregated_status
        (self : GeminiService) (env : Env) (input : MessageInput) (w : World) :
  (forall k path, In path (paths_of input k) -> exists bytes, fs env path = inr bytes) ->
  exists status w',
    aggregate self env input w = (Returned status, w')
    /\ messages status = with_default [] (texts input)
    /\ (forall k, In (kind_name k) (map fst (results status))
                  <-> paths_of input k <> [])
    /\ (forall k, paths_of input k <> [] ->
                  exists items,
                    obj_get (results status) (kind_name k) = Some items
                    /\ List.length items = List.length (paths_of input k))
    /\ (forall k, paths_of input k = [] ->
                  obj_get (results status) (kind_name k) = None)
    /\ (forall key, In key (map fst (results status)) -> exists k, key = kind_name k).
Proof.
  intros Hread.
  destruct (aggregate_readable self env input w Hread) as [rs [w' [Hrun Hlen]]].
  eexists. exists w'. split; [exact Hrun|]. cbn [messages results].
  assert (Hnil : forall k, paths_of input k = [] <-> rs k = []).
  { intros k. specialize (Hlen k).
    destruct (rs k), (paths_of input k); simpl in Hlen; split;
      intros; congruence. }
  split; [reflexivity|]. split; [|split; [|split]].
  - intros k. split.
    + intros Hin Hr. apply Hnil in Hr.
      pose proof (grouped_get rs k) as Hget. rewrite Hr in Hget.
      apply obj_get_None_iff in Hget. contradiction.
    + intros Hne.
      destruct (in_dec string_dec (kind_name k)
                  (map fst (filter nonnil (map (fun k => (kind_name k, rs k))
                     [Image; Audio; Video; Sticker; Document])))) as [Hin | Hnot];
        [assumption|].
      apply obj_get_None_iff in Hnot. rewrite grouped_get in Hnot.
      destruct (rs k) eqn:E; [|discriminate].
      exfalso. apply Hne. now apply Hnil.
  - intros k Hne. exists (rs k). split; [|apply Hlen].
    rewrite grouped_get. destruct (rs k) eqn:E; [|reflexivity].
    exfalso. apply Hne. now apply Hnil.
  - intros k Hk. rewrite grouped_get. apply Hnil in Hk. now rewrite Hk.
  - apply grouped_keys.
Qed.

Lemma C10_aggregated_status_witness :
  exists status w',
    aggregate a_service stub_missing_file two_images_one_document []
    = (Returned status, w')
    /\ messages status = with_default [] (texts two_images_one_document)
    /\ (forall k, In (kind_name k) (map fst (results status))
                  <-> paths_of two_images_one_document k <> [])
    /\ (forall k, paths_of two_images_one_document k <> [] ->
                  exists items,
                    obj_get (results status) (kind_name k) = Some items
                    /\ List.length items
                       = List.length (paths_of two_images_one_document k))
    /\ (forall k, paths_of two_images_one_document k = [] ->
                  obj_get (results status) (kind_name k) = None)
    /\ (forall key, In key (map fst (results status)) -> exists k, key = kind_name k).
Proof.
  apply (C10_aggregated_status a_service stub_missing_file
                               two_images_one_document []).
  intros k path Hin. exists "bytes".
  destruct k; simpl in Hin;
    repeat (destruct Hin as [<- | Hin]; [reflexivity|]); contradiction.
Defined.

(* ===================================================================== *)
(** * The composed prompt                                                 *)
(* ===================================================================== *)

Lemma contextParts_array_split (results : ResultsObject)
      (messages : list string) (ctx : string) :
  contextParts_array results messages ctx
  = ([final_preamble; history_block ctx; messages_block messages]
       ++ media_blocks results)%list.
Proof. reflexivity. Qed.

Lemma expected_blocks_length (results : ResultsObject) :
  List.length (expected_blocks results)
  = List.length (filter has_content (flat_map snd results)).
Proof.
  unfold expected_blocks.
  induction results as [|[type items] results IH]; [reflexivity|].
  simpl. rewrite length_app, filter_app, length_app, IH. f_equal.
  rewrite length_map. generalize 0.
  induction items as [|item items IHi]; intros start; [reflexivity|].
  simpl. destruct (has_content item); simpl; now rewrite IHi.
Qed.

Lemma media_block_same_content (type : string) (item item' : ProcessingResult.t)
      (i : nat) :
  get_content item = get_content item' ->
  media_block type item i = media_block type item' i.
Proof. intros H. unfold media_block. now rewrite H. Qed.

Lemma mapi_from_same_content (type : string) (items : list ProcessingResult.t) :
  forall (items' : list ProcessingResult.t) (start : nat),
    map get_content items = map get_content items' ->
    mapi_from start (media_block type) items
    = mapi_from start (media_block type) items'.
Proof.
  induction items as [|item items IH]; intros [|item' items'] start H;
    simpl in H; try discriminate; [reflexivity|].
  injection H as Hhead Htail. simpl.
  now rewrite (media_block_same_content type item item' start Hhead),
              (IH items' (S start) Htail).
Qed.

Lemma media_blocks_same_contents (r1 r2 : ResultsObject) :
  same_contents r1 r2 -> media_blocks r1 = media_blocks r2.
Proof.
  unfold same_contents, media_blocks.
  induction 1 as [|[t1 i1] [t2 i2] r1 r2 [Ht Hi] _ IH]; [reflexivity|].
  simpl in Ht, Hi. subst t2. simpl. rewrite IH. f_equal.
  unfold mapi. now apply mapi_from_same_content.
Qed.

(** A run of the composition: the image that failed keeps its position, so
    the image that follows it is number 2; the blank audio answer is a
    content like any other. *)
Example contextParts_example :
  contextParts [("image", [failed_result "Error al procesar imagen";
                           content_result (Str "un gato")]);
                ("audio", [content_result (Str " ")]);
                ("document", [content_result Undefined;
                              content_result (Str "")])]
               ["hola"; "mira"] "ayer"
  = final_preamble
    ++ nl ++ nl ++ "Conversation history:" ++ nl ++ "ayer"
    ++ nl ++ nl ++ "User's messages:" ++ nl ++ "1. hola" ++ nl ++ "2. mira"
    ++ nl ++ nl ++ "Image 2 description: un gato"
    ++ nl ++ nl ++ "Audio 1 transcription:  ".
Proof. reflexivity. Qed.

(** C4. In the prompt [generateFinalResponse] composes, the parts kept
    after the three leading ones are exactly the labeled blocks of the
    items that have a non-empty content, one block per such item, in the
    order of the kinds and of the items; the block of the item at position
    [i] of its kind is ['{Kind} {i+1} {label}: {content}'] after a blank
    line, the label being 'transcription' for audio, 'summary' for document
    and 'description' otherwise.  An item without content, in particular a
    failure-shaped one, has no block, and the prompt does not depend on
    anything but the contents of the items (so not on an error text). *)
Theorem C4_one_block_per_item_with_content
        (results : ResultsObject) (messages : list string) (ctx : string) :
  filter nonempty (contextParts_array results messages ctx)
  = (filter nonempty [final_preamble; history_block ctx; messages_block messages]
       ++ expected_blocks results)%list
  /\ contextParts results messages ctx
     = join "" [final_preamble; history_block ctx; messages_block messages]
       ++ join "" (expected_blocks results)
  /\ List.length (expected_blocks results)
     = List.length (filter has_content (flat_map snd results))
  /\ (forall type item i c,
        get_content item = Str c -> c <> "" ->
        media_block type item i
        = nl ++ nl ++ capitalize type ++ " " ++ show_nat (i + 1) ++ " "
          ++ label_of type ++ ": " ++ c)
  /\ (forall type item i, has_content item = false -> media_block type item i = "")
  /\ (forall type msg i, media_block type (failed_result msg) i = "")
  /\ (forall type i, media_block type (content_result (Str "")) i = ""
                     /\ media_block type (content_result Undefined) i = "")
  /\ (label_of "audio" = "transcription"
      /\ label_of "document" = "summary"
      /\ forall type, type <> "audio" -> type <> "document" ->
                      label_of type = "description")
  /\ (forall k, capitalize (kind_name k) = kind_title k)
  /\ (forall results', same_contents results results' ->
                       contextParts results messages ctx
                       = contextParts results' messages ctx).
Proof.
  assert (Hfilter :
            filter nonempty (contextParts_array results messages ctx)
            = (filter nonempty
                      [final_preamble; history_block ctx; messages_block messages]
                 ++ expected_blocks results)%list).
  { now rewrite contextParts_array_split, filter_app, filter_media_blocks. }
  split; [exact Hfilter|].
  split.
  { unfold contextParts. rewrite Hfilter, join_empty_app.
    now rewrite join_filter_nonempty. }
  split; [apply expected_blocks_length|].
  split; [intros type item i c Hc Hne; now apply media_block_content|].
  split; [intros type item i H; now apply media_block_no_content|].
  split; [reflexivity|].
  split; [intros type i; split; reflexivity|].
  split.
  { split; [reflexivity|]. split; [reflexivity|].
    intros type Ha Hd. unfold label_of.
    destruct (String.eqb_spec type "audio"); [contradiction|].
    destruct (String.eqb_spec type "document"); [contradiction | reflexivity]. }
  split; [intros []; reflexivity|].
  intros results' Hsame. unfold contextParts.
  now rewrite !contextParts_array_split, (media_blocks_same_contents _ _ Hsame).
Qed.

Lemma aggregate_all_empty (self : GeminiService) (env : Env)
      (input : MessageInput) (w : World) :
  all_empty input ->
  aggregate self env input w = (Returned {| results := []; messages := [] |}, w).
Proof.
  intros [Ht Hp]. unfold aggregate, flatMapM, mediaTypes.
  pose proof (Hp Image) as H1. pose proof (Hp Audio) as H2.
  pose proof (Hp Video) as H3. pose proof (Hp Sticker) as H4.
  pose proof (Hp Document) as H5. simpl in H1, H2, H3, H4, H5.
  rewrite Ht, H1, H2, H3, H4, H5. reflexivity.
Qed.

(** C5. The composed prompt is the concatenation, in this order, of the
    fixed preamble, of the conversation-history block (present if and only
    if the context string is non-empty), of the block that enumerates the
    user's text messages from 1 (present if and only if there is at least
    one message), and of the blocks of the media.  For an input whose
    collections are all empty, [processMessage] goes straight to the
    synthesis with an empty status, and the prompt is the preamble alone,
    followed by the history block when a context is given. *)
Theorem C5_prompt_composition
        (results : ResultsObject) (messages : list string) (ctx : string) :
  contextParts results messages ctx
  = final_preamble ++ history_block ctx ++ messages_block messages
    ++ join "" (media_blocks results)
  /\ (ctx = "" -> history_block ctx = "")
  /\ (ctx <> "" ->
      history_block ctx = nl ++ nl ++ "Conversation history:" ++ nl ++ ctx)
  /\ (messages = [] -> messages_block messages = "")
  /\ (messages <> [] ->
      messages_block messages
      = nl ++ nl ++ "User's messages:" ++ nl ++ enumerated_messages messages)
  /\ (forall self env fuel input w,
        all_empty input ->
        processMessage self env fuel input w
        = generateFinalResponse self env fuel
                                {| results := []; messages := [] |}
                                (contextPrompt input) w)
  /\ contextParts [] [] ctx = final_preamble ++ history_block ctx
  /\ contextParts [] [] "" = final_preamble.
Proof.
  split.
  { unfold contextParts. rewrite join_filter_nonempty.
    unfold contextParts_array. now rewrite !join_empty_cons. }
  split; [intros ->; reflexivity|].
  split; [intros Hne; destruct ctx; [congruence | reflexivity]|].
  split; [intros ->; reflexivity|].
  split.
  { intros Hne. destruct messages as [|m ms]; [congruence|].
    unfold messages_block, enumerated_messages, mapi.
    now rewrite mapi_from_indexed. }
  split.
  { intros self env fuel input w Hempty. unfold processMessage, bind.
    now rewrite (aggregate_all_empty self env input w Hempty). }
  split.
  { unfold contextParts. rewrite join_filter_nonempty.
    unfold contextParts_array. rewrite !join_empty_cons. simpl.
    now rewrite append_empty_r. }
  reflexivity.
Qed.

(* ===================================================================== *)
(** * Further properties of generateFinalResponse                         *)
(* ===================================================================== *)

Lemma message_or_default_nonempty (m : JsText) : message_or_default m <> "".
Proof. unfold message_or_default. destruct m as [|[|c r]]; discriminate. Qed.

Lemma final_shapes_exclusive (r : FinalResponse.t) :
  ~ (final_success r /\ final_error r).
Proof.
  intros [[s [_ Hs]] [m [e [_ [_ He]]]]]. rewrite Hs in He. discriminate.
Qed.

(** X1. [generateFinalResponse] sends at least one and at most five
    requests and ends in one of three ways.  It returns the success shape,
    whose [response] is a text that is not blank and is repeated under
    [results.text.content]; or it returns the error shape, whose [message]
    and [error] are non-empty and whose [processed] is [true]; or, exactly
    when its last remote call has thrown [undefined] or [null], it raises
    the TypeError that the reading of [error.message] in its catch block
    throws.  So it never raises as long as no remote call throws
    [undefined] or [null]. *)
Theorem X1_generateFinalResponse_returns_one_shape
        (self : GeminiService) (env : Env) (fuel : nat)
        (status : AggregatedStatus) (ctx : JsText) (w : World) :
  maxAttempts <= fuel ->
  exists n c,
    1 <= n <= 5
    /\ generateFinalResponse self env fuel status ctx w
       = (c, (w ++ attempts_log self (prompt_of status ctx) 0 n)%list)
    /\ ((exists r, c = Returned r
                   /\ (final_success r \/ final_error r)
                   /\ ~ (final_success r /\ final_error r)
                   /\ ~ throws_nothing
                          (outcome_at self env (prompt_of status ctx) w 0 (n - 1)))
        \/ (exists e, (e = ThrownUndefined \/ e = ThrownNull)
                      /\ outcome_at self env (prompt_of status ctx) w 0 (n - 1)
                         = Throws e
                      /\ c = Raised (cannot_read_message e)))
    /\ ((forall i req, ~ throws_nothing (generateContent env i req)) ->
        exists r, c = Returned r).
Proof.
  intros Hfuel.
  destruct (do_while_outcome self env (prompt_of status ctx) fuel 0 w)
    as [n [c [Hn [Hrun [Hc [Hraised Hreturned]]]]]];
    [unfold maxAttempts; lia | lia |].
  rewrite generateFinalResponse_unfold, Hrun.
  exists n. unfold maxAttempts in Hn.
  destruct c as [text|e|]; [| |congruence].
  - assert (Hlast : ~ throws_nothing
                      (outcome_at self env (prompt_of status ctx) w 0 (n - 1))).
    { intros Hthrows. unfold throws_nothing in Hthrows.
      rewrite (Hreturned text eq_refl) in Hthrows.
      destruct Hthrows; discriminate. }
    destruct (no_text text) eqn:Hno.
    + exists (Returned empty_response_error). split; [lia|]. split; [reflexivity|].
      split; [|eauto]. left. eexists. split; [reflexivity|].
      split; [|split; [apply final_shapes_exclusive | exact Hlast]].
      right. eexists. eexists. split; [|split; [|reflexivity]]; discriminate.
    + exists (Returned (success_response text)).
      split; [lia|]. split; [reflexivity|].
      split; [|eauto]. left. eexists. split; [reflexivity|].
      split; [|split; [apply final_shapes_exclusive | exact Hlast]].
      left. destruct text as [|s]; [discriminate|].
      exists s. split; [assumption | reflexivity].
  - specialize (Hraised e eq_refl).
    destruct e as [| |m].
    + exists (Raised (cannot_read_message ThrownUndefined)).
      split; [lia|]. split; [reflexivity|]. split.
      * right. exists ThrownUndefined. auto.
      * intros Hsafe. exfalso. unfold outcome_at in Hraised.
        eapply Hsafe. left. exact Hraised.
    + exists (Raised (cannot_read_message ThrownNull)).
      split; [lia|]. split; [reflexivity|]. split.
      * right. exists ThrownNull. auto.
      * intros Hsafe. exfalso. unfold outcome_at in Hraised.
        eapply Hsafe. right. exact Hraised.
    + exists (Returned (caught_error m)).
      split; [lia|]. split; [reflexivity|]. split; [|eauto].
      left. eexists. split; [reflexivity|].
      split; [|split; [apply final_shapes_exclusive|]].
      * right. exists "Error al generar respuesta final", (message_or_default m).
        split; [discriminate|].
        split; [apply message_or_default_nonempty | reflexivity].
      * unfold throws_nothing. rewrite Hraised. intros [H | H]; discriminate.
Qed.

Lemma X1_generateFinalResponse_returns_one_shape_witness :
  exists n c,
    1 <= n <= 5
    /\ generateFinalResponse a_service stub_text_on_third 7 one_text_status
                             (Str "antes") []
       = (c, ([] ++ attempts_log a_service
                                 (prompt_of one_text_status (Str "antes")) 0 n)%list)
    /\ ((exists r, c = Returned r
                   /\ (final_success r \/ final_error r)
                   /\ ~ (final_success r /\ final_error r)
                   /\ ~ throws_nothing
                          (outcome_at a_service stub_text_on_third
                                      (prompt_of one_text_status (Str "antes"))
                                      [] 0 (n - 1)))
        \/ (exists e, (e = ThrownUndefined \/ e = ThrownNull)
                      /\ outcome_at a_service stub_text_on_third
                                    (prompt_of one_text_status (Str "antes"))
                                    [] 0 (n - 1)
                         = Throws e
                      /\ c = Raised (cannot_read_message e)))
    /\ ((forall i req, ~ throws_nothing (generateContent stub_text_on_third i req)) ->
        exists r, c = Returned r).
Proof.
  apply (X1_generateFinalResponse_returns_one_shape
           a_service stub_text_on_third 7 one_text_status (Str "antes") []).
  unfold maxAttempts. lia.
Defined.

(** X2. All the requests of one call of [generateFinalResponse] differ in
    their temperature only: each one has the composed prompt as its single
    text part, the fixed system instruction, the token cap 2048 and the
    model of the service. *)
Theorem X2_final_requests_are_uniform
        (self : GeminiService) (env : Env) (fuel : nat)
        (status : AggregatedStatus) (ctx : JsText) (w : World) (req : Request) :
  maxAttempts <= fuel ->
  In req (snd (generateFinalResponse self env fuel status ctx w)) ->
  In req w
  \/ (contents req = [Text (prompt_of status ctx)]
      /\ systemInstruction (config req) = Some final_systemInstruction
      /\ maxOutputTokens (config req) = 2048
      /\ model req = this_model self).
Proof.
  intros Hfuel Hin.
  destruct (generateFinalResponse_log self env fuel status ctx w Hfuel)
    as [n [_ Hrun]].
  rewrite Hrun in Hin. apply in_app_or in Hin.
  destruct Hin as [Hin | Hin]; [now left | right].
  unfold attempts_log in Hin. apply in_map_iff in Hin.
  destruct Hin as [a [<- _]]. repeat split.
Qed.

Lemma X2_final_requests_are_uniform_witness :
  In (final_request a_service (prompt_of one_text_status Undefined) 1) []
  \/ (contents (final_request a_service (prompt_of one_text_status Undefined) 1)
      = [Text (prompt_of one_text_status Undefined)]
      /\ systemInstruction
           (config (final_request a_service (prompt_of one_text_status Undefined) 1))
         = Some final_systemInstruction
      /\ maxOutputTokens
           (config (final_request a_service (prompt_of one_text_status Undefined) 1))
         = 2048
      /\ model (final_request a_service (prompt_of one_text_status Undefined) 1)
         = this_model a_service).
Proof.
  apply (X2_final_requests_are_uniform
           a_service stub_always_empty 5 one_text_status Undefined []).
  - unfold maxAttempts. lia.
  - right. left. reflexivity.
Defined.

(** X3. The loop stops at the first answer that has text: when the first
    [k] answers are empty and the next one, number [k] with [k < 5], has a
    text that is not blank, the call sends exactly [k + 1] requests and
    returns the success result that carries this text. *)
Theorem X3_stops_at_first_text
        (self : GeminiService) (env : Env) (fuel : nat)
        (status : AggregatedStatus) (ctx : JsText) (w : World)
        (k : nat) (text : JsText) :
  maxAttempts <= fuel -> k < maxAttempts ->
  (forall i, i < k -> empty_at self env (prompt_of status ctx) w 0 i) ->
  outcome_at self env (prompt_of status ctx) w 0 k = Responds text ->
  no_text text = false ->
  generateFinalResponse self env fuel status ctx w
  = (Returned (success_response text),
     (w ++ attempts_log self (prompt_of status ctx) 0 (S k))%list)
  /\ FinalResponse.status (success_response text) = "success"
  /\ FinalResponse.response (success_response text) = Some text.
Proof.
  intros Hfuel Hk Hempty Hout Hno.
  pose proof (generateFinalResponse_after_empty self env fuel status ctx w k text
                Hfuel Hk Hempty Hout (or_introl Hno)) as Hrun.
  rewrite Hno in Hrun. repeat split. exact Hrun.
Qed.

Lemma X3_stops_at_first_text_witness :
  generateFinalResponse a_service stub_text_on_third 5 one_text_status Undefined []
  = (Returned (success_response (Str "Listo")),
     ([] ++ attempts_log a_service (prompt_of one_text_status Undefined) 0 3)%list)
  /\ FinalResponse.status (success_response (Str "Listo")) = "success"
  /\ FinalResponse.response (success_response (Str "Listo")) = Some (Str "Listo").
Proof.
  apply (X3_stops_at_first_text
           a_service stub_text_on_third 5 one_text_status Undefined [] 2 (Str "Listo")).
  - unfold maxAttempts. lia.
  - unfold maxAttempts. lia.
  - intros i Hi. unfold empty_at, outcome_at.
    destruct i as [|[|i]]; try lia; simpl; eexists; split; reflexivity.
  - reflexivity.
  - reflexivity.
Defined.

(* ===================================================================== *)
(** * The grouping of the results, for any sequence of tagged results     *)
(* ===================================================================== *)

Lemma obj_get_set_same (o : ResultsObject) (k : string)
      (v : list ProcessingResult.t) :
  obj_get (obj_set o k v) k = Some v.
Proof.
  induction o as [|[k0 v0] o IH]; simpl.
  - now rewrite String.eqb_refl.
  - destruct (String.eqb k0 k) eqn:E; simpl; rewrite E; [reflexivity | exact IH].
Qed.

Lemma obj_get_set_other (o : ResultsObject) (k k' : string)
      (v : list ProcessingResult.t) :
  k <> k' -> obj_get (obj_set o k v) k' = obj_get o k'.
Proof.
  intros Hne. induction o as [|[k0 v0] o IH]; simpl.
  - destruct (String.eqb_spec k k'); [contradiction | reflexivity].
  - destruct (String.eqb_spec k0 k) as [-> | Hk]; simpl.
    + destruct (String.eqb_spec k k'); [contradiction | reflexivity].
    + destruct (String.eqb k0 k'); [reflexivity | exact IH].
Qed.

Lemma obj_set_keys (o : ResultsObject) (k : string)
      (v : list ProcessingResult.t) :
  map fst (obj_set o k v)
  = match obj_get o k with
    | Some _ => map fst o
    | None => (map fst o ++ [k])%list
    end.
Proof.
  induction o as [|[k0 v0] o IH]; simpl; [reflexivity|].
  destruct (String.eqb k0 k); simpl; [reflexivity|].
  rewrite IH. now destruct (obj_get o k).
Qed.

Lemma push_result_get_same (o : ResultsObject) (k : string)
      (r : ProcessingResult.t) :
  obj_get (push_result o (k, r)) k
  = Some (with_default [] (obj_get o k) ++ [r])%list.
Proof.
  unfold push_result. destruct (obj_get o k) as [items|] eqn:E.
  - rewrite E. apply obj_get_set_same.
  - rewrite obj_get_set_same. apply obj_get_set_same.
Qed.

Lemma push_result_get_other (o : ResultsObject) (k k' : string)
      (r : ProcessingResult.t) :
  k <> k' -> obj_get (push_result o (k, r)) k' = obj_get o k'.
Proof.
  intros Hne. unfold push_result. destruct (obj_get o k) as [items|] eqn:E.
  - rewrite E. now apply obj_get_set_other.
  - rewrite obj_get_set_same.
    now rewrite !obj_get_set_other by assumption.
Qed.

Lemma push_result_keys (o : ResultsObject) (k : string) (r : ProcessingResult.t) :
  map fst (push_result o (k, r))
  = match obj_get o k with
    | Some _ => map fst o
    | None => (map fst o ++ [k])%list
    end.
Proof.
  unfold push_result. destruct (obj_get o k) as [items|] eqn:E.
  - rewrite E, obj_set_keys, E. reflexivity.
  - rewrite obj_get_set_same, obj_set_keys, obj_get_set_same.
    now rewrite obj_set_keys, E.
Qed.

Lemma fold_push_get (l : list (string * ProcessingResult.t)) :
  forall (o : ResultsObject) (k : string),
    obj_get (fold_left push_result l o) k
    = match obj_get o k, results_of_type k l with
      | None, [] => None
      | Some v, rs => Some (v ++ rs)%list
      | None, rs => Some rs
      end.
Proof.
  induction l as [|[k1 r1] l IH]; intros o k.
  - simpl. destruct (obj_get o k); [now rewrite app_nil_r | reflexivity].
  - cbn [fold_left]. rewrite IH. unfold results_of_type. cbn [filter fst].
    destruct (String.eqb_spec k1 k) as [-> | Hne].
    + rewrite push_result_get_same. cbn [map snd].
      destruct (obj_get o k) as [v|]; simpl.
      * now rewrite <- app_assoc.
      * reflexivity.
    + rewrite (push_result_get_other o k1 k r1 Hne).
      reflexivity.
Qed.

(** X4. The [forEach] of [processMessage] groups any sequence of tagged
    results, however the types are interleaved: after it, the list under a
    type holds exactly the results tagged with that type, in the order of
    the sequence, and a type that tags no result has no key. *)
Theorem X4_grouping_lookup
        (l : list (string * ProcessingResult.t)) (type : string) :
  obj_get (fold_left push_result l []) type
  = match results_of_type type l with
    | [] => None
    | r :: rs => Some (r :: rs)
    end.
Proof.
  rewrite fold_push_get. simpl. now destruct (results_of_type type l).
Qed.

Lemma results_of_type_nil_iff (type : string)
      (l : list (string * ProcessingResult.t)) :
  results_of_type type l = [] <-> ~ In type (map fst l).
Proof.
  unfold results_of_type. induction l as [|[k r] l IH]; simpl.
  - tauto.
  - destruct (String.eqb_spec k type) as [-> | Hne]; simpl.
    + split; [discriminate | intros H; exfalso; apply H; now left].
    + rewrite IH. tauto.
Qed.

Lemma fold_push_keys_NoDup (l : list (string * ProcessingResult.t)) :
  forall o : ResultsObject,
    NoDup (map fst o) -> NoDup (map fst (fold_left push_result l o)).
Proof.
  induction l as [|[k r] l IH]; intros o Hnd; [exact Hnd|].
  cbn [fold_left]. apply IH. rewrite push_result_keys.
  destruct (obj_get o k) eqn:E; [exact Hnd|].
  apply obj_get_None_iff in E.
  apply NoDup_app; [exact Hnd | repeat constructor; intros [] |].
  intros x Hx [<- | []]. contradiction.
Qed.

(** X5. The object built by the [forEach] has no key twice, and its keys
    are exactly the types that tag at least one result. *)
Theorem X5_grouping_keys (l : list (string * ProcessingResult.t)) :
  NoDup (map fst (fold_left push_result l []))
  /\ forall type,
       In type (map fst (fold_left push_result l [])) <-> In type (map fst l).
Proof.
  split; [apply fold_push_keys_NoDup; constructor|].
  intros type.
  pose proof (obj_get_None_iff (fold_left push_result l []) type) as Hget.
  pose proof (results_of_type_nil_iff type l) as Hnil.
  rewrite fold_push_get in Hget. simpl in Hget.
  destruct (results_of_type type l) as [|r rs].
  - split.
    + intros Hin. exfalso. apply (proj1 Hget eq_refl). exact Hin.
    + intros Hin. exfalso. apply (proj1 Hnil eq_refl). exact Hin.
  - split; intros _.
    + destruct (in_dec string_dec type (map fst l)) as [Hin | Hnot]; [exact Hin|].
      apply Hnil in Hnot. discriminate.
    + destruct (in_dec string_dec type (map fst (fold_left push_result l [])))
        as [Hin | Hnot]; [exact Hin|].
      apply Hget in Hnot. discriminate.
Qed.

(* ===================================================================== *)
(** * Further properties of processMessage                                *)
(* ===================================================================== *)

Lemma Promise_all_app {A : Type} (ps1 ps2 : list (Promise A)) :
  Promise_all (ps1 ++ ps2)
  = match Promise_all ps1 with
    | Returned l1 =>
        match Promise_all ps2 with
        | Returned l2 => Returned (l1 ++ l2)%list
        | Raised e => Raised e
        | OutOfFuel => OutOfFuel
        end
    | Raised e => Raised e
    | OutOfFuel => OutOfFuel
    end.
Proof.
  induction ps1 as [|[a|e|] ps1 IH]; simpl; try reflexivity.
  - now destruct (Promise_all ps2).
  - rewrite IH. destruct (Promise_all ps1); try reflexivity.
    now destruct (Promise_all ps2).
Qed.

Lemma mapi_from_app {A B : Type} (f : A -> nat -> B) (l1 l2 : list A) :
  forall n,
    mapi_from n f (l1 ++ l2)
    = (mapi_from n f l1 ++ mapi_from (n + List.length l1) f l2)%list.
Proof.
  induction l1 as [|x l1 IH]; intros n; simpl.
  - now rewrite Nat.add_0_r.
  - rewrite IH. now replace (S n + List.length l1) with (n + S (List.length l1)) by lia.
Qed.

Lemma mapi_from_length {A B : Type} (f : A -> nat -> B) (l : list A) :
  forall n, List.length (mapi_from n f l) = List.length l.
Proof. induction l as [|x l IH]; intros n; simpl; [reflexivity | now rewrite IH]. Qed.

Lemma mapi_from_nth {A B : Type} (f : A -> nat -> B) (l : list A) :
  forall n i x,
    nth_error l i = Some x -> nth_error (mapi_from n f l) i = Some (f x (n + i)).
Proof.
  induction l as [|y l IH]; intros n [|i] x H; simpl in *; try discriminate.
  - injection H as ->. now rewrite Nat.add_0_r.
  - rewrite (IH (S n) i x H). now replace (S n + i) with (n + S i) by lia.
Qed.

Lemma first_unreadable_app (env : Env) (us1 us2 : list (MediaKind * string)) :
  first_unreadable env (us1 ++ us2)
  = match first_unreadable env us1 with
    | Some e => Some e
    | None => first_unreadable env us2
    end.
Proof.
  induction us1 as [|u us1 IH]; simpl; [reflexivity|].
  now destruct (fs env (snd u)).
Qed.

Lemma media_requests_app (self : GeminiService) (env : Env)
      (us1 us2 : list (MediaKind * string)) :
  media_requests self env (us1 ++ us2)
  = (media_requests self env us1 ++ media_requests self env us2)%list.
Proof. unfold media_requests. apply flat_map_app. Qed.

(** When every file can be read, every unit sends one request. *)
Lemma media_requests_length (self : GeminiService) (env : Env)
      (us : list (MediaKind * string)) :
  first_unreadable env us = None ->
  List.length (media_requests self env us) = List.length us.
Proof.
  induction us as [|u us IH]; simpl; [reflexivity|].
  unfold sent_request. destruct (fs env (snd u)); [discriminate|].
  intros H. simpl. now rewrite IH.
Qed.

Lemma media_requests_bound (self : GeminiService) (env : Env)
      (us : list (MediaKind * string)) :
  List.length (media_requests self env us) <= List.length us.
Proof.
  induction us as [|u us IH]; simpl; [lia|].
  unfold sent_request. destruct (fs env (snd u)); simpl; lia.
Qed.

Lemma settled_app (self : GeminiService) (env : Env)
      (us1 us2 : list (MediaKind * string)) (w : World)
      (ps1 ps2 : list (Promise (string * ProcessingResult.t))) :
  Promise_all ps1 = settled self env us1 (List.length w) ->
  Promise_all ps2
  = settled self env us2 (List.length (w ++ media_requests self env us1)) ->
  Promise_all (ps1 ++ ps2) = settled self env (us1 ++ us2) (List.length w).
Proof.
  intros H1 H2. rewrite Promise_all_app, H1, H2. unfold settled.
  rewrite first_unreadable_app.
  destruct (first_unreadable env us1) eqn:E1; [reflexivity|].
  destruct (first_unreadable env us2) eqn:E2; [reflexivity|].
  unfold unit_results. rewrite mapi_from_app, length_app.
  now rewrite (media_requests_length self env us1 E1).
Qed.

(** The promises of one kind: the log gains the requests of the files
    that can be read, and [Promise.all] settles as [settled] says. *)
Lemma mapM_start_unit_settles (self : GeminiService) (env : Env)
      (k : MediaKind) (paths : list string) :
  forall w : World,
    exists ps,
      mapM (start_unit self env (kind_name k)) paths w
      = (Returned ps, (w ++ media_requests self env (map (pair k) paths))%list)
      /\ Promise_all ps = settled self env (map (pair k) paths) (List.length w).
Proof.
  induction paths as [|path paths IH]; intros w.
  - exists []. simpl. rewrite app_nil_r. split; reflexivity.
  - simpl mapM. unfold bind at 1. rewrite start_unit_run, processor_run.
    unfold settled. cbn [map first_unreadable media_requests flat_map snd fst].
    unfold sent_request at 1. cbn [snd fst].
    destruct (fs env path) as [e|bytes] eqn:Hfs.
    + cbn [fst snd]. unfold bind.
      destruct (IH w) as [ps [Hrun Hall]]. rewrite Hrun.
      exists (Raised e :: ps). split; reflexivity.
    + cbv zeta.
      destruct (IH (w ++ [kind_request self k (base64 env bytes)])%list)
        as [ps [Hrun Hall]].
      unfold settled in Hall. rewrite length_app in Hall. simpl in Hall.
      replace (List.length w + 1) with (S (List.length w)) in Hall by lia.
      unfold unit_results. cbn [mapi_from fst snd].
      unfold unit_result at 1. rewrite Hfs.
      destruct (generateContent env _ _) as [e|text]; cbn [fst snd];
        unfold bind; rewrite Hrun; unfold ret; cbn [promise_then];
        eexists; (split; [now rewrite <- app_assoc|]);
        cbn [Promise_all]; rewrite Hall;
        destruct (first_unreadable env (map (pair k) paths)); reflexivity.
Qed.

Lemma units_unfold (input : MessageInput) :
  units input
  = (map (pair Image) (paths_of input Image)
     ++ map (pair Audio) (paths_of input Audio)
     ++ map (pair Video) (paths_of input Video)
     ++ map (pair Sticker) (paths_of input Sticker)
     ++ map (pair Document) (paths_of input Document))%list.
Proof. unfold units. simpl. now rewrite app_nil_r. Qed.

(** The whole of lines 12-25: the requests of the readable files are sent
    in the order of the units; then either the first read error is raised
    or the results are grouped. *)
Lemma aggregate_run (self : GeminiService) (env : Env)
      (input : MessageInput) (w : World) :
  aggregate self env input w
  = match first_unreadable env (units input) with
    | Some e => (Raised e, (w ++ media_requests self env (units input))%list)
    | None =>
        (Returned {| results :=
                       fold_left push_result
                                 (unit_results self env (units input) (List.length w))
                                 [];
                     messages := with_default [] (texts input) |},
         (w ++ media_requests self env (units input))%list)
    end.
Proof.
  destruct (mapM_start_unit_settles self env Image (paths_of input Image) w)
    as [p1 [H1 A1]].
  destruct (mapM_start_unit_settles self env Audio (paths_of input Audio)
              (w ++ media_requests self env (map (pair Image) (paths_of input Image)))%list)
    as [p2 [H2 A2]].
  destruct (mapM_start_unit_settles self env Video (paths_of input Video)
              ((w ++ media_requests self env (map (pair Image) (paths_of input Image)))
                 ++ media_requests self env (map (pair Audio) (paths_of input Audio)))%list)
    as [p3 [H3 A3]].
  destruct (mapM_start_unit_settles self env Sticker (paths_of input Sticker)
              (((w ++ media_requests self env (map (pair Image) (paths_of input Image)))
                  ++ media_requests self env (map (pair Audio) (paths_of input Audio)))
                 ++ media_requests self env (map (pair Video) (paths_of input Video)))%list)
    as [p4 [H4 A4]].
  destruct (mapM_start_unit_settles self env Document (paths_of input Document)
              ((((w ++ media_requests self env (map (pair Image) (paths_of input Image)))
                   ++ media_requests self env (map (pair Audio) (paths_of input Audio)))
                  ++ media_requests self env (map (pair Video) (paths_of input Video)))
                 ++ media_requests self env (map (pair Sticker) (paths_of input Sticker)))%list)
    as [p5 [H5 A5]].
  pose proof (settled_app self env _ _ _ p4 p5 A4 A5) as A45.
  pose proof (settled_app self env _ _ _ p3 (p4 ++ p5)%list A3 A45) as A345.
  pose proof (settled_app self env _ _ _ p2 (p3 ++ p4 ++ p5)%list A2 A345) as A2345.
  pose proof (settled_app self env _ _ _ p1 (p2 ++ p3 ++ p4 ++ p5)%list A1 A2345) as Aall.
  rewrite <- units_unfold in Aall.
  unfold aggregate, flatMapM, mediaTypes. simpl mapM.
  simpl in H1, H2, H3, H4, H5.
  unfold bind. rewrite H1, H2, H3, H4, H5. unfold ret, await.
  simpl List.concat. rewrite app_nil_r, Aall. unfold settled.
  assert (Hlog : (w ++ media_requests self env (units input))%list
                 = (((((w ++ media_requests self env
                               (map (pair Image) (paths_of input Image)))
                         ++ media_requests self env
                              (map (pair Audio) (paths_of input Audio)))
                        ++ media_requests self env
                             (map (pair Video) (paths_of input Video)))
                       ++ media_requests self env
                            (map (pair Sticker) (paths_of input Sticker)))
                      ++ media_requests self env
                           (map (pair Document) (paths_of input Document)))%list).
  { now rewrite units_unfold, !media_requests_app, !app_assoc. }
  unfold paths_of in Hlog. rewrite <- Hlog.
  now destruct (first_unreadable env (units input)).
Qed.

Lemma processMessage_run (self : GeminiService) (env : Env) (fuel : nat)
      (input : MessageInput) (w : World) :
  processMessage self env fuel input w
  = match first_unreadable env (units input) with
    | Some e => (Raised e, (w ++ media_requests self env (units input))%list)
    | None =>
        generateFinalResponse self env fuel
          {| results :=
               fold_left push_result
                         (unit_results self env (units input) (List.length w)) [];
             messages := with_default [] (texts input) |}
          (contextPrompt input)
          (w ++ media_requests self env (units input))%list
    end.
Proof.
  unfold processMessage, bind. rewrite aggregate_run.
  now destruct (first_unreadable env (units input)).
Qed.

Lemma in_units (input : MessageInput) (k : MediaKind) (path : string) :
  In (k, path) (units input) <-> In path (paths_of input k).
Proof.
  unfold units. rewrite in_flat_map. split.
  - intros [k' [_ Hin]]. apply in_map_iff in Hin.
    destruct Hin as [p [Heq Hp]]. now injection Heq as -> ->.
  - intros Hin. exists k. split; [destruct k; simpl; tauto | now apply in_map].
Qed.

Lemma first_unreadable_None (env : Env) (us : list (MediaKind * string)) :
  (forall u, In u us -> exists bytes, fs env (snd u) = inr bytes) ->
  first_unreadable env us = None.
Proof.
  induction us as [|u us IH]; intros H; simpl; [reflexivity|].
  destruct (H u (or_introl eq_refl)) as [bytes ->].
  apply IH. intros u' Hu'. apply H. now right.
Qed.

Lemma first_unreadable_Some (env : Env) (us : list (MediaKind * string))
      (u : MediaKind * string) (e0 : JsError) :
  In u us -> fs env (snd u) = inl e0 ->
  exists e u', first_unreadable env us = Some e
               /\ In u' us /\ fs env (snd u') = inl e.
Proof.
  induction us as [|v us IH]; intros Hin Hfs; [contradiction|].
  simpl. destruct (fs env (snd v)) as [e|bytes] eqn:Ev.
  - exists e, v. repeat split; [now left | assumption].
  - destruct Hin as [-> | Hin]; [congruence|].
    destruct (IH Hin Hfs) as [e [u' [H1 [H2 H3]]]].
    exists e, u'. repeat split; [assumption | now right | assumption].
Qed.

Lemma inputs_readable (env : Env) (input : MessageInput) :
  (forall k path, In path (paths_of input k) -> exists bytes, fs env path = inr bytes) ->
  first_unreadable env (units input) = None.
Proof.
  intros H. apply first_unreadable_None. intros [k path] Hin.
  apply (H k). now apply in_units.
Qed.

Lemma media_request_shape (self : GeminiService) (env : Env)
      (us : list (MediaKind * string)) (req : Request) :
  In req (media_requests self env us) ->
  exists k path bytes,
    In (k, path) us /\ fs env path = inr bytes
    /\ req = kind_request self k (base64 env bytes).
Proof.
  unfold media_requests. rewrite in_flat_map. intros [[k path] [Hin Hreq]].
  unfold sent_request in Hreq. simpl in Hreq.
  destruct (fs env path) as [e|bytes] eqn:E; [contradiction|].
  destruct Hreq as [<- | []]. now exists k, path, bytes.
Qed.

Lemma kind_request_config (self : GeminiService) (k : MediaKind) (data : string) :
  model (kind_request self k data) = this_model self
  /\ maxOutputTokens (config (kind_request self k data)) = 2048
  /\ systemInstruction (config (kind_request self k data)) = None.
Proof. destruct k; repeat split. Qed.

(** ** The results, kind by kind *)

Lemma results_of_type_app (type : string)
      (l1 l2 : list (string * ProcessingResult.t)) :
  results_of_type type (l1 ++ l2)
  = (results_of_type type l1 ++ results_of_type type l2)%list.
Proof. unfold results_of_type. now rewrite filter_app, map_app. Qed.

Lemma results_of_type_same (self : GeminiService) (env : Env) (k : MediaKind)
      (paths : list string) :
  forall n,
    results_of_type (kind_name k) (unit_results self env (map (pair k) paths) n)
    = mapi_from n (unit_result self env k) paths.
Proof.
  unfold results_of_type, unit_results.
  induction paths as [|path paths IH]; intros n; [reflexivity|].
  cbn [map mapi_from filter fst snd]. rewrite String.eqb_refl.
  cbn [map snd]. now rewrite IH.
Qed.

Lemma results_of_type_other (self : GeminiService) (env : Env) (k k' : MediaKind)
      (paths : list string) :
  k <> k' ->
  forall n,
    results_of_type (kind_name k) (unit_results self env (map (pair k') paths) n) = [].
Proof.
  intros Hne. unfold results_of_type, unit_results.
  induction paths as [|path paths IH]; intros n; [reflexivity|].
  cbn [map mapi_from filter fst snd].
  replace (String.eqb (kind_name k') (kind_name k)) with false
    by (destruct k, k'; try reflexivity; congruence).
  apply IH.
Qed.

Lemma unit_results_app (self : GeminiService) (env : Env)
      (us1 us2 : list (MediaKind * string)) (n : nat) :
  unit_results self env (us1 ++ us2) n
  = (unit_results self env us1 n
       ++ unit_results self env us2 (n + List.length us1))%list.
Proof. unfold unit_results. apply mapi_from_app. Qed.

Lemma kind_results_lookup (self : GeminiService) (env : Env)
      (input : MessageInput) (n : nat) (k : MediaKind) :
  results_of_type (kind_name k) (unit_results self env (units input) n)
  = kind_results self env input n k.
Proof.
  rewrite units_unfold. rewrite !unit_results_app, !results_of_type_app.
  rewrite !length_map. unfold kind_results.
  destruct k; cbn [offset];
    repeat first
           [ rewrite results_of_type_same
           | rewrite results_of_type_other by discriminate ];
    rewrite ?app_nil_r; simpl app; f_equal; unfold paths_of; lia.
Qed.

Lemma kind_results_nil (self : GeminiService) (env : Env)
      (input : MessageInput) (n : nat) (k : MediaKind) :
  kind_results self env input n k = [] <-> paths_of input k = [].
Proof.
  unfold kind_results. destruct (paths_of input k); simpl; split;
    intros H; congruence.
Qed.

(** X6. When every file can be read, the list that [processMessage] puts
    under a kind follows the order of the supplied paths, not the order in
    which the answers arrive: its element number [i] is the result of the
    path number [i] of that kind, that is the answer to the request sent
    for this path, the one number [offset + i] among the media requests
    (kinds in the order image, audio, video, sticker, document). *)
Theorem X6_results_follow_input_order
        (self : GeminiService) (env : Env) (input : MessageInput) (w : World) :
  (forall k path, In path (paths_of input k) -> exists bytes, fs env path = inr bytes) ->
  exists status,
    aggregate self env input w
    = (Returned status, (w ++ media_requests self env (units input))%list)
    /\ (forall k, paths_of input k <> [] ->
                  obj_get (results status) (kind_name k)
                  = Some (kind_results self env input (List.length w) k))
    /\ (forall k i path,
          nth_error (paths_of input k) i = Some path ->
          nth_error (kind_results self env input (List.length w) k) i
          = Some (unit_result self env k path (List.length w + offset input k + i)))
    /\ (forall k i path bytes,
          nth_error (paths_of input k) i = Some path ->
          fs env path = inr bytes ->
          nth_error (media_requests self env (units input)) (offset input k + i)
          = Some (kind_request self k (base64 env bytes))).
Proof.
  intros Hread. pose proof (inputs_readable env input Hread) as Hnone.
  rewrite aggregate_run, Hnone. eexists. split; [reflexivity|].
  cbn [results]. split; [|split].
  - intros k Hne. rewrite fold_push_get. cbn [obj_get].
    rewrite kind_results_lookup.
    destruct (kind_results self env input (List.length w) k) eqn:E; [|reflexivity].
    exfalso. apply Hne. now apply (kind_results_nil self env input (List.length w) k).
  - intros k i path Hnth. unfold kind_results. now apply mapi_from_nth.
  - intros k i path bytes Hnth Hfs.
    assert (Hreq : forall us,
               first_unreadable env us = None ->
               forall j u b,
                 nth_error us j = Some u -> fs env (snd u) = inr b ->
                 nth_error (media_requests self env us) j
                 = Some (kind_request self (fst u) (base64 env b))).
    { induction us as [|v us IH]; intros Hn j u b Hj Hb;
        [destruct j; discriminate|].
      simpl in Hn. simpl. unfold sent_request at 1.
      destruct (fs env (snd v)) as [e|bv] eqn:Ev; [discriminate|].
      destruct j as [|j]; simpl in Hj |- *.
      - injection Hj as ->. rewrite Hb in Ev. now injection Ev as ->.
      - now apply IH. }
    apply (Hreq (units input) Hnone (offset input k + i) (k, path) bytes);
      [|exact Hfs].
    rewrite units_unfold.
    destruct k; cbn [offset];
      repeat (rewrite nth_error_app2 by (rewrite ?length_app, ?length_map; lia));
      rewrite ?length_app, ?length_map;
      match goal with
      | |- nth_error _ ?j = _ => replace j with i by lia
      end;
      try (rewrite nth_error_app1
            by (rewrite length_map; apply nth_error_Some; congruence));
      rewrite nth_error_map, Hnth; reflexivity.
Qed.

Lemma X6_results_follow_input_order_witness :
  exists status,
    aggregate a_service stub_text_on_third two_images_one_document []
    = (Returned status,
       ([] ++ media_requests a_service stub_text_on_third
                             (units two_images_one_document))%list)
    /\ (forall k, paths_of two_images_one_document k <> [] ->
                  obj_get (results status) (kind_name k)
                  = Some (kind_results a_service stub_text_on_third
                                       two_images_one_document
                                       (List.length (@nil Request)) k))
    /\ (forall k i path,
          nth_error (paths_of two_images_one_document k) i = Some path ->
          nth_error (kind_results a_service stub_text_on_third
                                  two_images_one_document
                                  (List.length (@nil Request)) k) i
          = Some (unit_result a_service stub_text_on_third k path
                              (List.length (@nil Request)
                               + offset two_images_one_document k + i)))
    /\ (forall k i path bytes,
          nth_error (paths_of two_images_one_document k) i = Some path ->
          fs stub_text_on_third path = inr bytes ->
          nth_error (media_requests a_service stub_text_on_third
                                    (units two_images_one_document))
                    (offset two_images_one_document k + i)
          = Some (kind_request a_service k (base64 stub_text_on_third bytes))).
Proof.
  apply (X6_results_follow_input_order
           a_service stub_text_on_third two_images_one_document []).
  intros k path Hin. exists "bytes". reflexivity.
Defined.

(** X7. When some supplied file cannot be read, [processMessage] raises
    the error of the first such file in starting order and never calls the
    synthesis step; the processors of the files that can be read have
    nevertheless sent their requests, those started after the failing one
    included, and their answers are lost. *)
Theorem X7_unreadable_file_aborts_after_fan_out
        (self : GeminiService) (env : Env) (fuel : nat)
        (input : MessageInput) (w : World)
        (k0 : MediaKind) (path0 : string) (e0 : JsError) :
  In path0 (paths_of input k0) -> fs env path0 = inl e0 ->
  exists e,
    processMessage self env fuel input w
    = (Raised e, (w ++ media_requests self env (units input))%list)
    /\ first_unreadable env (units input) = Some e
    /\ (exists k path, In path (paths_of input k) /\ fs env path = inl e)
    /\ (forall req, In req (media_requests self env (units input)) ->
                    systemInstruction (config req) = None)
    /\ (forall k path bytes,
          In path (paths_of input k) -> fs env path = inr bytes ->
          In (kind_request self k (base64 env bytes))
             (media_requests self env (units input))).
Proof.
  intros Hin Hfs.
  destruct (first_unreadable_Some env (units input) (k0, path0) e0
              (proj2 (in_units input k0 path0) Hin) Hfs)
    as [e [[k path] [Hfirst [Hu He]]]].
  exists e. rewrite processMessage_run, Hfirst.
  split; [reflexivity|]. split; [reflexivity|]. split; [|split].
  - exists k, path. split; [now apply in_units | exact He].
  - intros req Hreq.
    destruct (media_request_shape self env _ req Hreq) as [k1 [p1 [b1 [_ [_ ->]]]]].
    apply kind_request_config.
  - intros k1 p1 b1 Hp Hb. unfold media_requests. apply in_flat_map.
    exists (k1, p1). split; [now apply in_units|].
    unfold sent_request. simpl. rewrite Hb. now left.
Qed.

Lemma X7_unreadable_file_aborts_after_fan_out_witness :
  exists e,
    processMessage a_service stub_missing_file 5 missing_between_readable []
    = (Raised e,
       ([] ++ media_requests a_service stub_missing_file
                             (units missing_between_readable))%list)
    /\ first_unreadable stub_missing_file (units missing_between_readable) = Some e
    /\ (exists k path,
          In path (paths_of missing_between_readable k)
          /\ fs stub_missing_file path = inl e)
    /\ (forall req,
          In req (media_requests a_service stub_missing_file
                                 (units missing_between_readable)) ->
          systemInstruction (config req) = None)
    /\ (forall k path bytes,
          In path (paths_of missing_between_readable k) ->
          fs stub_missing_file path = inr bytes ->
          In (kind_request a_service k (base64 stub_missing_file bytes))
             (media_requests a_service stub_missing_file
                             (units missing_between_readable))).
Proof.
  apply (X7_unreadable_file_aborts_after_fan_out
           a_service stub_missing_file 5 missing_between_readable []
           Image "/missing.jpg" enoent).
  - simpl. right. left. reflexivity.
  - reflexivity.
Defined.

(** X8. When every supplied file can be read and the remote never throws
    [undefined] or [null], [processMessage] returns and does not raise,
    whatever else the remote does (its failures on the media included): it
    sends one request per supplied path, then between one and five
    synthesis requests built from the aggregated status, and its result has
    the status ['success'] or ['error']. *)
Theorem X8_readable_files_reach_synthesis
        (self : GeminiService) (env : Env) (fuel : nat)
        (input : MessageInput) (w : World) :
  maxAttempts <= fuel ->
  (forall k path, In path (paths_of input k) -> exists bytes, fs env path = inr bytes) ->
  (forall i req, ~ throws_nothing (generateContent env i req)) ->
  exists status n r,
    aggregate self env input w
    = (Returned status, (w ++ media_requests self env (units input))%list)
    /\ 1 <= n <= 5
    /\ processMessage self env fuel input w
       = (Returned r,
          ((w ++ media_requests self env (units input))
             ++ attempts_log self (prompt_of status (contextPrompt input)) 0 n)%list)
    /\ List.length (media_requests self env (units input))
       = List.length (units input)
    /\ (FinalResponse.status r = "success" \/ FinalResponse.status r = "error").
Proof.
  intros Hfuel Hread Hsafe. pose proof (inputs_readable env input Hread) as Hnone.
  rewrite processMessage_run, aggregate_run, Hnone.
  eexists.
  match goal with
  | |- context [generateFinalResponse self env fuel ?st ?c ?w1] =>
      destruct (generateFinalResponse_returns self env fuel st c w1 Hfuel Hsafe)
        as [n [r [Hn [Hrun Hst]]]]
  end.
  exists n, r. split; [reflexivity|]. unfold maxAttempts in Hn.
  split; [lia|]. split; [exact Hrun|].
  split; [now apply media_requests_length | exact Hst].
Qed.

Lemma X8_readable_files_reach_synthesis_witness :
  exists status n r,
    aggregate a_service stub_throws_everything two_images_one_document []
    = (Returned status,
       ([] ++ media_requests a_service stub_throws_everything
                             (units two_images_one_document))%list)
    /\ 1 <= n <= 5
    /\ processMessage a_service stub_throws_everything 5 two_images_one_document []
       = (Returned r,
          (([] ++ media_requests a_service stub_throws_everything
                                 (units two_images_one_document))
             ++ attempts_log a_service
                             (prompt_of status (contextPrompt two_images_one_document))
                             0 n)%list)
    /\ List.length (media_requests a_service stub_throws_everything
                                   (units two_images_one_document))
       = List.length (units two_images_one_document)
    /\ (FinalResponse.status r = "success" \/ FinalResponse.status r = "error").
Proof.
  apply (X8_readable_files_reach_synthesis
           a_service stub_throws_everything 5 two_images_one_document []).
  - unfold maxAttempts. lia.
  - intros k path Hin. exists "bytes". reflexivity.
  - intros i req [H | H]; discriminate.
Defined.

(** X9. A service built by the constructor sends every request, those of
    the processors and those of the synthesis alike, to the model
    ['gemini-2.5-flash-preview-04-17'] with the token cap 2048. *)
Theorem X9_every_request_uses_the_fixed_model
        (apiKey : JsText) (self : GeminiService) (env : Env) (fuel : nat)
        (input : MessageInput) (w : World) (req : Request) :
  constructor apiKey = inr self ->
  maxAttempts <= fuel ->
  In req (snd (processMessage self env fuel input w)) ->
  In req w
  \/ (model req = "gemini-2.5-flash-preview-04-17"
      /\ maxOutputTokens (config req) = 2048).
Proof.
  intros Hnew Hfuel Hin.
  assert (Hmodel : this_model self = "gemini-2.5-flash-preview-04-17").
  { destruct apiKey as [|[|c key]]; simpl in Hnew; try discriminate.
    now injection Hnew as <-. }
  assert (Hmedia : forall r, In r (media_requests self env (units input)) ->
                             model r = "gemini-2.5-flash-preview-04-17"
                             /\ maxOutputTokens (config r) = 2048).
  { intros r Hr.
    destruct (media_request_shape self env _ r Hr) as [k [p [b [_ [_ ->]]]]].
    destruct (kind_request_config self k (base64 env b)) as [Hm [Hc _]].
    now rewrite Hm, Hmodel. }
  rewrite processMessage_run in Hin.
  destruct (first_unreadable env (units input)) as [e|].
  - simpl in Hin. apply in_app_or in Hin.
    destruct Hin as [Hin | Hin]; [now left | right; now apply Hmedia].
  - match type of Hin with
    | context [generateFinalResponse self env fuel ?st ?c ?w1] =>
        destruct (generateFinalResponse_log self env fuel st c w1 Hfuel)
          as [n [_ Hrun]]
    end.
    rewrite Hrun in Hin.
    apply in_app_or in Hin. destruct Hin as [Hin | Hin].
    + apply in_app_or in Hin.
      destruct Hin as [Hin | Hin]; [now left | right; now apply Hmedia].
    + right. unfold attempts_log in Hin. apply in_map_iff in Hin.
      destruct Hin as [a [<- _]]. simpl. now rewrite Hmodel.
Qed.

Lemma X9_every_request_uses_the_fixed_model_witness :
  In (kind_request a_service Image (base64 stub_text_on_third "bytes")) []
  \/ (model (kind_request a_service Image (base64 stub_text_on_third "bytes"))
      = "gemini-2.5-flash-preview-04-17"
      /\ maxOutputTokens
           (config (kind_request a_service Image (base64 stub_text_on_third "bytes")))
         = 2048).
Proof.
  apply (X9_every_request_uses_the_fixed_model
           (Str "key") a_service stub_text_on_third 5 two_images_one_document []).
  - reflexivity.
  - unfold maxAttempts. lia.
  - left. reflexivity.
Defined.

(** ** Media that yield no content *)

Lemma obj_set_no_contents (o : ResultsObject) (k : string)
      (v : list ProcessingResult.t) :
  no_contents o -> Forall (fun item => has_content item = false) v ->
  no_contents (obj_set o k v).
Proof.
  unfold no_contents. intros Ho Hv.
  induction o as [|[k0 v0] o IH]; simpl.
  - now repeat constructor.
  - inversion Ho as [|x l Hx Hl]; subst.
    destruct (String.eqb k0 k); constructor; auto.
Qed.

Lemma obj_get_no_contents (o : ResultsObject) (k : string)
      (v : list ProcessingResult.t) :
  no_contents o -> obj_get o k = Some v ->
  Forall (fun item => has_content item = false) v.
Proof.
  unfold no_contents. intros Ho.
  induction o as [|[k0 v0] o IH]; simpl; [discriminate|].
  inversion Ho as [|x l Hx Hl]; subst.
  destruct (String.eqb k0 k); [intros H; now injection H as <- | now apply IH].
Qed.

Lemma push_result_no_contents (o : ResultsObject) (k : string)
      (r : ProcessingResult.t) :
  no_contents o -> has_content r = false -> no_contents (push_result o (k, r)).
Proof.
  intros Ho Hr. unfold push_result.
  destruct (obj_get o k) as [items|] eqn:E.
  - rewrite E. apply obj_set_no_contents; [assumption|].
    apply Forall_app. split; [now apply (obj_get_no_contents o k) | now constructor].
  - rewrite obj_get_set_same.
    apply obj_set_no_contents; [|now repeat constructor].
    apply obj_set_no_contents; [assumption | constructor].
Qed.

Lemma fold_push_no_contents (l : list (string * ProcessingResult.t)) :
  forall o : ResultsObject,
    no_contents o ->
    Forall (fun tr => has_content (snd tr) = false) l ->
    no_contents (fold_left push_result l o).
Proof.
  induction l as [|[k r] l IH]; intros o Ho Hl; [exact Ho|].
  inversion Hl as [|x l' Hx Hl']; subst. cbn [fold_left].
  apply IH; [now apply push_result_no_contents | assumption].
Qed.

Lemma expected_blocks_no_contents (o : ResultsObject) :
  no_contents o -> expected_blocks o = [].
Proof.
  unfold no_contents, expected_blocks.
  induction 1 as [|[type items] o Hitems _ IH]; [reflexivity|].
  simpl. rewrite IH, app_nil_r. simpl in Hitems.
  generalize 0. induction Hitems as [|item items Hitem _ IHi]; intros n;
    [reflexivity|].
  simpl. rewrite Hitem. apply IHi.
Qed.

(** Items without content leave the prompt as it is without media. *)
Lemma contextParts_no_contents (o : ResultsObject) (messages : list string)
      (ctx : string) :
  no_contents o -> contextParts o messages ctx = contextParts [] messages ctx.
Proof.
  intros Ho. unfold contextParts.
  rewrite !contextParts_array_split, !filter_app, !filter_media_blocks.
  now rewrite (expected_blocks_no_contents o Ho).
Qed.

Lemma unit_results_no_content (self : GeminiService) (env : Env)
      (us : list (MediaKind * string)) :
  forall n,
    (forall i req, n <= i < n + List.length us ->
                   no_content_outcome (generateContent env i req)) ->
    Forall (fun tr => has_content (snd tr) = false) (unit_results self env us n).
Proof.
  unfold unit_results.
  induction us as [|[k path] us IH]; intros n Hquiet; [constructor|].
  cbn [mapi_from fst snd]. constructor.
  - cbn [snd]. unfold unit_result.
    destruct (fs env path) as [e|bytes]; [reflexivity|].
    pose proof (Hquiet n (kind_request self k (base64 env bytes))
                       ltac:(simpl; lia)) as Hq.
    destruct (generateContent env n _) as [e|text]; [reflexivity|].
    exact Hq.
  - apply IH. intros i req Hi. apply Hquiet. simpl. lia.
Qed.

(** X10. Media that yield no content leave no trace in the final prompt:
    when every file can be read and each media request either fails or is
    answered without text, the synthesis requests that [processMessage]
    sends, between one and five of them, carry exactly the prompt it would
    compose for the same texts and context with no media at all, so the
    model is not told that anything was attached. *)
Theorem X10_media_without_content_leave_no_trace
        (self : GeminiService) (env : Env) (fuel : nat)
        (input : MessageInput) (w : World) :
  maxAttempts <= fuel ->
  (forall k path, In path (paths_of input k) -> exists bytes, fs env path = inr bytes) ->
  (forall i req,
      List.length w <= i < List.length w + List.length (units input) ->
      no_content_outcome (generateContent env i req)) ->
  exists n,
    1 <= n <= 5
    /\ snd (processMessage self env fuel input w)
       = ((w ++ media_requests self env (units input))
            ++ attempts_log self
                 (contextParts [] (with_default [] (texts input))
                               (contextPrompt_default (contextPrompt input)))
                 0 n)%list
    /\ fst (processMessage self env fuel input w)
       = fst (generateFinalResponse
                self env fuel
                {| results := []; messages := with_default [] (texts input) |}
                (contextPrompt input)
                (w ++ media_requests self env (units input))%list).
Proof.
  intros Hfuel Hread Hquiet.
  pose proof (inputs_readable env input Hread) as Hnone.
  rewrite processMessage_run, Hnone.
  assert (Hprompt :
            prompt_of {| results :=
                           fold_left push_result
                             (unit_results self env (units input) (List.length w)) [];
                         messages := with_default [] (texts input) |}
                      (contextPrompt input)
            = prompt_of {| results := [];
                           messages := with_default [] (texts input) |}
                        (contextPrompt input)).
  { unfold prompt_of. cbn [results messages].
    apply contextParts_no_contents.
    apply fold_push_no_contents; [constructor|].
    now apply unit_results_no_content. }
  match goal with
  | |- context [generateFinalResponse self env fuel ?st ?c ?w1] =>
      destruct (generateFinalResponse_log self env fuel st c w1 Hfuel)
        as [n [Hn Hrun]];
      pose proof (generateFinalResponse_unfold self env fuel st c w1) as Hleft
  end.
  pose proof (generateFinalResponse_unfold
                self env fuel
                {| results := []; messages := with_default [] (texts input) |}
                (contextPrompt input)
                (w ++ media_requests self env (units input))%list) as Hright.
  rewrite Hprompt in Hleft, Hrun. rewrite <- Hright in Hleft.
  exists n. unfold maxAttempts in Hn. split; [lia|].
  split; [exact Hrun | now rewrite Hleft].
Qed.

Lemma X10_media_without_content_leave_no_trace_witness :
  exists n,
    1 <= n <= 5
    /\ snd (processMessage a_service stub_throws_everything 5
                           two_images_one_document [])
       = (([] ++ media_requests a_service stub_throws_everything
                                (units two_images_one_document))
            ++ attempts_log a_service
                 (contextParts [] (with_default [] (texts two_images_one_document))
                               (contextPrompt_default
                                  (contextPrompt two_images_one_document)))
                 0 n)%list
    /\ fst (processMessage a_service stub_throws_everything 5
                           two_images_one_document [])
       = fst (generateFinalResponse
                a_service stub_throws_everything 5
                {| results := [];
                   messages := with_default [] (texts two_images_one_document) |}
                (contextPrompt two_images_one_document)
                ([] ++ media_requests a_service stub_throws_everything
                                      (units two_images_one_document))%list).
Proof.
  apply (X10_media_without_content_leave_no_trace
           a_service stub_throws_everything 5 two_images_one_document []).
  - unfold maxAttempts. lia.
  - intros k path Hin. exists "bytes". reflexivity.
  - intros i req Hi. simpl. exact I.
Defined.

(* ===================================================================== *)
(** * Blank answers                                                       *)
(* ===================================================================== *)

Ltac arith_of_bool :=
  repeat first [ rewrite andb_true_iff in *
               | rewrite orb_true_iff in *
               | rewrite Nat.leb_le in *
               | rewrite Nat.eqb_eq in * ].

Lemma ws1_not_visible (a : nat) : ws1 a = true -> visible_byte a = false.
Proof.
  unfold ws1, visible_byte. intros H. apply not_true_is_false. intros V.
  arith_of_bool. lia.
Qed.

Lemma ws2_not_visible (a b : nat) :
  ws2 a b = true -> visible_byte a = false /\ visible_byte b = false.
Proof.
  unfold ws2, visible_byte. intros H.
  split; apply not_true_is_false; intros V; arith_of_bool; lia.
Qed.

Lemma ws3_not_visible (a b c : nat) :
  ws3 a b c = true ->
  visible_byte a = false /\ visible_byte b = false /\ visible_byte c = false.
Proof.
  unfold ws3, visible_byte. intros H.
  repeat split; apply not_true_is_false; intros V; arith_of_bool; lia.
Qed.

(** A text with a visible character is not blank: [trim] cannot empty it. *)
Lemma visible_not_blank (n : nat) :
  forall s, String.length s <= n -> has_visible s = true -> trim_is_empty s = false.
Proof.
  induction n as [|n IH]; intros s Hlen Hvis.
  - destruct s; [discriminate | simpl in Hlen; lia].
  - destruct s as [|a r1]; [discriminate|].
    simpl in Hlen. cbn [has_visible] in Hvis. cbn [trim_is_empty].
    destruct (ws1 (nat_of_ascii a)) eqn:E1.
    + rewrite (ws1_not_visible _ E1) in Hvis. apply IH; [lia | exact Hvis].
    + destruct r1 as [|b r2]; [reflexivity|].
      simpl in Hlen. cbn [has_visible] in Hvis.
      destruct (ws2 (nat_of_ascii a) (nat_of_ascii b)) eqn:E2.
      * destruct (ws2_not_visible _ _ E2) as [Ha Hb].
        rewrite Ha, Hb in Hvis. apply IH; [lia | exact Hvis].
      * destruct r2 as [|c r3]; [reflexivity|].
        simpl in Hlen. cbn [has_visible] in Hvis.
        destruct (ws3 (nat_of_ascii a) (nat_of_ascii b) (nat_of_ascii c)) eqn:E3;
          [|reflexivity].
        destruct (ws3_not_visible _ _ _ E3) as [Ha [Hb Hc]].
        rewrite Ha, Hb, Hc in Hvis. apply IH; [lia | exact Hvis].
Qed.

(** X11. An answer that has at least one printable ASCII character other
    than the space is never taken for an empty one: when the first answer
    is such a text, [generateFinalResponse] sends one request only, at
    temperature 0.9, and returns the success result that carries the text
    as it was answered, its surrounding white space included. *)
Theorem X11_visible_answer_is_accepted_at_once
        (self : GeminiService) (env : Env) (fuel : nat)
        (status : AggregatedStatus) (ctx : JsText) (w : World) (s : string) :
  maxAttempts <= fuel ->
  generateContent env (List.length w)
                  (final_request self (prompt_of status ctx) 0)
  = Responds (Str s) ->
  has_visible s = true ->
  generateFinalResponse self env fuel status ctx w
  = (Returned (success_response (Str s)),
     (w ++ [final_request self (prompt_of status ctx) 0])%list)
  /\ temperature (config (final_request self (prompt_of status ctx) 0)) = 0.9%float.
Proof.
  intros Hfuel Hout Hvis. split; [|reflexivity].
  assert (Hno : no_text (Str s) = false).
  { unfold no_text. rewrite (visible_not_blank (String.length s) s (le_n _) Hvis).
    destruct s; [discriminate | reflexivity]. }
  pose proof (generateFinalResponse_after_empty self env fuel status ctx w 0 (Str s)
                Hfuel ltac:(unfold maxAttempts; lia)
                ltac:(intros i Hi; lia)) as Hrun.
  unfold outcome_at in Hrun. rewrite Nat.add_0_r in Hrun.
  specialize (Hrun Hout (or_introl Hno)). rewrite Hno in Hrun. exact Hrun.
Qed.

Lemma X11_visible_answer_is_accepted_at_once_witness :
  generateFinalResponse a_service stub_missing_file 5 one_text_status Undefined []
  = (Returned (success_response (Str "ok")),
     ([] ++ [final_request a_service (prompt_of one_text_status Undefined) 0])%list)
  /\ temperature (config (final_request a_service
                                        (prompt_of one_text_status Undefined) 0))
     = 0.9%float.
Proof.
  apply (X11_visible_answer_is_accepted_at_once
           a_service stub_missing_file 5 one_text_status Undefined [] "ok").
  - unfold maxAttempts. lia.
  - reflexivity.
  - reflexivity.
Defined.
